(** * News crawler: per-site crawl engine, site adapters and multi-site
      aggregation (crawler.py)

    A shallow embedding of [crawler.py]: the [NewsItem] record, the three
    site adapters ([NaverCrawler], [DaumCrawler], [HankyungCrawler]), the
    common driving loop [BaseCrawler.crawl] with its nested exception
    handlers, and [MultiSiteCrawler] with its registry check and its
    de-duplication pass.

    Python values are modelled as follows.
    - [str] is a list of Unicode code points ([pystr]); [str.strip()] removes
      the code points for which [str.isspace()] holds.
    - [int] is [Z].
    - The browser is an environment: what each page does when it is
      navigated to, waited for and parsed is given by a [site_world].
    - Exceptions and the mutable attributes ([self._driver], the local
      [results] list) live in a state-and-exception monad [M]; [try/except]
      and [try/finally] are combinators of that monad.
    - [float] durations are rationals ([Q]); [random.random()] returns the
      value the environment holds for it. *)

From Stdlib Require Import ZArith List String Ascii Lia.
From Stdlib Require DecimalString.
From Stdlib Require Import QArith Lqa.
From stdpp Require Import base decidable option list gmap sets.

Set Warnings "-register-all,-clear-no-such-hyp".

Local Open Scope Z_scope.
Local Open Scope list_scope.

(* ===================================================================== *)
(** ** Python strings                                                    *)
(* ===================================================================== *)

(** A Python [str]: a sequence of Unicode code points. *)
Abbreviation pystr := (list N).

(** An ASCII literal of the source as a [pystr]. *)
Definition py (s : string) : pystr :=
  List.map N_of_ascii (list_ascii_of_string s).

(** Truth value of a [str]: the empty string is falsy. *)
Definition truthy (s : pystr) : bool :=
  match s with [] => false | _ :: _ => true end.

(** [a or b] on strings. *)
Definition por (a b : pystr) : pystr := if truthy a then a else b.

(** [str.isspace()] on one code point (the Unicode White_Space set plus the
    four information separators, as CPython has it). *)
Definition isspace (c : N) : bool :=
  ((9 <=? c) && (c <=? 13) || (28 <=? c) && (c <=? 32)
   || (c =? 133) || (c =? 160) || (c =? 5760)
   || (8192 <=? c) && (c <=? 8202)
   || (c =? 8232) || (c =? 8233) || (c =? 8239) || (c =? 8287)
   || (c =? 12288))%N.

Fixpoint lstrip (s : pystr) : pystr :=
  match s with
  | [] => []
  | c :: s' => if isspace c then lstrip s' else s
  end.

Definition rstrip (s : pystr) : pystr := rev (lstrip (rev s)).

(** [s.strip()] *)
Definition strip (s : pystr) : pystr := rstrip (lstrip s).

(** [s.startswith(p)] *)
Fixpoint startswith (s p : pystr) : bool :=
  match p, s with
  | [], _ => true
  | _ :: _, [] => false
  | a :: p', b :: s' => (a =? b)%N && startswith s' p'
  end.

(** [k in text] for strings: [k] occurs as a contiguous substring. *)
Fixpoint contains (text k : pystr) : bool :=
  startswith text k ||
  match text with
  | [] => false
  | _ :: text' => contains text' k
  end.

(** [str(n)] for an [int]. *)
Definition str_of_int (n : Z) : pystr :=
  py (DecimalString.NilZero.string_of_int (Z.to_int n)).

(* ===================================================================== *)
(** ** Data class                                                        *)
(* ===================================================================== *)

Record NewsItem := mkNewsItem {
  title      : pystr;
  press      : pystr;
  pub_time   : pystr;
  url        : pystr;
  source     : pystr;
  crawled_at : pystr
}.

(* ===================================================================== *)
(** ** Exceptions                                                        *)
(* ===================================================================== *)

(** The exceptions the crawler can meet.  [KeyboardInterrupt] stands for
    the [BaseException]s that are not [Exception]s; every other constructor
    is a subclass of [Exception]. *)
Inductive exn :=
| TimeoutException
| WebDriverException
| UnicodeEncodeError
| KeyError
| ValueError (invalid : gset pystr) (available : list pystr)
| KeyboardInterrupt.

(** [isinstance(e, Exception)], the filter of [except Exception]. *)
Definition is_Exception (e : exn) : bool :=
  match e with KeyboardInterrupt => false | _ => true end.

(** [isinstance(e, TimeoutException)], the filter of
    [except TimeoutException]. *)
Definition is_TimeoutException (e : exn) : bool :=
  match e with TimeoutException => true | _ => false end.

(** Result of a call that returns or raises. *)
Inductive res (A : Type) :=
| Ok (a : A)
| Exc (e : exn).
Arguments Ok {A} a.
Arguments Exc {A} e.

(* ===================================================================== *)
(** ** urllib.parse.quote_plus and str.format                            *)
(* ===================================================================== *)

(** UTF-8 bytes of one code point; surrogates cannot be encoded
    ([errors='strict']). *)
Definition utf8_encode_cp (c : N) : option (list N) :=
  (if c <? 128 then Some [c]
   else if c <? 2048 then Some [192 + c / 64; 128 + c mod 64]
   else if c <? 65536 then
     if (55296 <=? c) && (c <=? 57343) then None
     else Some [224 + c / 4096; 128 + (c / 64) mod 64; 128 + c mod 64]
   else if c <? 1114112 then
     Some [240 + c / 262144; 128 + (c / 4096) mod 64;
           128 + (c / 64) mod 64; 128 + c mod 64]
   else None)%N.

Fixpoint utf8_encode (s : pystr) : option (list N) :=
  match s with
  | [] => Some []
  | c :: s' =>
      match utf8_encode_cp c, utf8_encode s' with
      | Some b, Some bs => Some (b ++ bs)
      | _, _ => None
      end
  end.

(** The bytes [quote] never escapes: letters, digits and [_.-~]. *)
Definition always_safe (b : N) : bool :=
  ((65 <=? b) && (b <=? 90) || (97 <=? b) && (b <=? 122)
   || (48 <=? b) && (b <=? 57)
   || (b =? 95) || (b =? 46) || (b =? 45) || (b =? 126))%N.

Definition hex_digit (d : N) : N := (if d <? 10 then 48 + d else 55 + d)%N.

(** One byte under [quote_plus]: a space becomes [+], a safe byte stays,
    anything else becomes [%XX]. *)
Definition quote_byte (b : N) : pystr :=
  (if b =? 32 then [43]
   else if always_safe b then [b]
   else [37; hex_digit (b / 16); hex_digit (b mod 16)])%N.

Definition quote_plus (s : pystr) : res pystr :=
  match utf8_encode s with
  | Some bs => Ok (flat_map quote_byte bs)
  | None => Exc UnicodeEncodeError
  end.

(** [template.format(...)] with keyword arguments, for templates with
    plain [{name}] fields: [field] is [None] outside braces and holds the
    name read so far inside. *)
Fixpoint format_go (tpl : list ascii) (field : option string)
         (kwargs : list (string * pystr)) : res pystr :=
  match tpl with
  | [] => Ok []
  | c :: tpl' =>
      match field with
      | None =>
          if Ascii.eqb c "{" then format_go tpl' (Some EmptyString) kwargs
          else match format_go tpl' None kwargs with
               | Ok out => Ok (N_of_ascii c :: out)
               | Exc e => Exc e
               end
      | Some name =>
          if Ascii.eqb c "}" then
            match List.find (fun kv => String.eqb (fst kv) name) kwargs with
            | Some kv =>
                match format_go tpl' None kwargs with
                | Ok out => Ok (snd kv ++ out)
                | Exc e => Exc e
                end
            | None => Exc KeyError
            end
          else format_go tpl' (Some (name ++ String c EmptyString)%string) kwargs
      end
  end.

Definition format (template : string) (kwargs : list (string * pystr))
  : res pystr :=
  format_go (list_ascii_of_string template) None kwargs.

(* ===================================================================== *)
(** ** The loaded page, as Selenium shows it                             *)
(* ===================================================================== *)

(** A [WebElement] (or the document itself): its visible text, its
    attributes, and for every CSS selector the elements below it that
    match, in document order. *)
Inductive WebElement := MkElement {
  text : pystr;
  get_attribute : string -> option pystr;
  find_elements : string -> list WebElement
}.

(** [find_element]: the first match; [None] is [NoSuchElementException]. *)
Definition find_element (e : WebElement) (selector : string)
  : option WebElement :=
  head (find_elements e selector).

(* ===================================================================== *)
(** ** The browser as an environment                                     *)
(* ===================================================================== *)

(** What one result page does in one run: whether [driver.get] raises,
    whether the readiness wait raises ([TimeoutException] when the selector
    never shows up), whether extraction raises, and otherwise the document
    that is loaded and the clock readings taken while it is parsed;
    [random_draw] is what [random.random()] returns when the pacing after
    this page draws its delay. *)
Record page_world := {
  get_raises : option exn;
  wait_raises : option exn;
  parse_raises : option exn;
  document : WebElement;
  clock : nat -> pystr;
  random_draw : Q
}.

(** How [build_driver] fails, when it does: in [webdriver.Chrome(options)],
    before any browser exists, or in [driver.execute_script(...)], when the
    browser has already started. *)
Inductive build_failure :=
| ChromeRaises (e : exn)
| ScriptRaises (e : exn).

(** One browser session: whether and where [build_driver] raises, and the
    pages by page number. *)
Record site_world := {
  build_raises : option build_failure;
  pages_of : Z -> page_world
}.

Inductive WebDriver := Chrome (headless : bool).

(** What the run does to the outside, in order. *)
Inductive event :=
| EvBuild (headless : bool)
| EvGet (url : pystr)
| EvWait (selector : string) (timeout : Z)
| EvParse
| EvSleep (seconds : Q)
| EvQuit.

(** The mutable state: the [_driver] attribute of the crawler whose [crawl]
    is running ([None] between runs), its local [results] list, the number
    of browser sessions started and not yet quit, and the events so far. *)
Record state := mkState {
  st_driver : option WebDriver;
  st_results : list NewsItem;
  st_live : nat;
  st_trace : list event
}.

(* ===================================================================== *)
(** ** State and exception monad                                         *)
(* ===================================================================== *)

Definition M (A : Type) : Type := state -> res A * state.

#[global] Instance M_ret : MRet M := λ A a s, (Ok a, s).

#[global] Instance M_bind : MBind M := λ A B f m s,
  match m s with
  | (Ok a, s') => f a s'
  | (Exc e, s') => (Exc e, s')
  end.

Definition raise {A} (e : exn) : M A := λ s, (Exc e, s).

(** A pure call that may raise. *)
Definition lift {A} (r : res A) : M A := λ s, (r, s).

(** [try: body / except <catches> as e: handler e] *)
Definition try_except {A} (body : M A) (catches : exn -> bool)
           (handler : exn -> M A) : M A := λ s,
  match body s with
  | (Ok a, s') => (Ok a, s')
  | (Exc e, s') => if catches e then handler e s' else (Exc e, s')
  end.

(** [try: body / finally: cleanup] *)
Definition try_finally {A} (body : M A) (cleanup : M unit) : M A := λ s,
  match body s with
  | (r, s') =>
      match cleanup s' with
      | (Ok _, s'') => (r, s'')
      | (Exc e, s'') => (Exc e, s'')
      end
  end.

(** [for x in xs: body x] *)
Fixpoint for_each {A} (xs : list A) (body : A -> M unit) : M unit :=
  match xs with
  | [] => mret ()
  | x :: xs' => body x ;; for_each xs' body
  end.

(** [range(a, b)] *)
Definition range (a b : Z) : list Z :=
  List.map (λ i, a + Z.of_nat i) (seq 0 (Z.to_nat (b - a))).

Definition emit (ev : event) : M unit := λ s,
  (Ok (), mkState (st_driver s) (st_results s) (st_live s) (st_trace s ++ [ev])).

Definition get_driver : M (option WebDriver) := λ s, (Ok (st_driver s), s).

Definition set_driver (d : option WebDriver) : M unit := λ s,
  (Ok (), mkState d (st_results s) (st_live s) (st_trace s)).

Definition get_results : M (list NewsItem) := λ s, (Ok (st_results s), s).

Definition set_results (r : list NewsItem) : M unit := λ s,
  (Ok (), mkState (st_driver s) r (st_live s) (st_trace s)).

(** [results.extend(items)] *)
Definition results_extend (items : list NewsItem) : M unit := λ s,
  (Ok (), mkState (st_driver s) (st_results s ++ items) (st_live s) (st_trace s)).

(** [webdriver.Chrome(options=options)]: a new browser session, unless the
    constructor raises. *)
Definition webdriver_Chrome (W : site_world) (headless : bool) : M WebDriver :=
  match build_raises W with
  | Some (ChromeRaises e) => raise e
  | _ => λ s,
      (Ok (Chrome headless),
       mkState (st_driver s) (st_results s) (S (st_live s))
               (st_trace s ++ [EvBuild headless]))
  end.

(** [driver.execute_script(...)] of [build_driver]. *)
Definition execute_script (W : site_world) : M unit :=
  match build_raises W with
  | Some (ScriptRaises e) => raise e
  | _ => mret ()
  end.

(** [build_driver(headless)] *)
Definition build_driver (W : site_world) (headless : bool) : M WebDriver :=
  driver ← webdriver_Chrome W headless ;
  execute_script W ;;
  mret driver.

(** [driver.quit()] *)
Definition driver_quit : M unit := λ s,
  (Ok (), mkState (st_driver s) (st_results s) (pred (st_live s))
                  (st_trace s ++ [EvQuit])).

(** [driver.get(url)] on page number [page]. *)
Definition driver_get (W : site_world) (page : Z) (url : pystr) : M unit :=
  emit (EvGet url) ;;
  match get_raises (pages_of W page) with
  | Some e => raise e
  | None => mret ()
  end.

(** [wait.until(EC.presence_of_element_located((By.CSS_SELECTOR, sel)))] *)
Definition wait_until (W : site_world) (page : Z) (selector : string)
           (timeout : Z) : M unit :=
  emit (EvWait selector timeout) ;;
  match wait_raises (pages_of W page) with
  | Some e => raise e
  | None => mret ()
  end.

(** [random.uniform(a, b)] is [a + (b - a) * random.random()]; [u] is the
    value [random.random()] returns. *)
Definition uniform (a b u : Q) : Q := (a + (b - a) * u)%Q.

(** [time.sleep(random.uniform( *range))] after page [page]. *)
Definition sleep_uniform (W : site_world) (page : Z) (range : Q * Q)
  : M unit :=
  emit (EvSleep (uniform (fst range) (snd range)
                         (random_draw (pages_of W page)))).

(* ===================================================================== *)
(** ** BaseCrawler                                                       *)
(* ===================================================================== *)

Module BaseCrawler.

(** The abstract interface: what every site crawler implements. *)
Record SiteAdapter := {
  SITE_KEY : pystr;
  build_url : pystr -> Z -> res pystr;
  wait_selector : string;
  parse_page : (nat -> pystr) -> WebElement -> list NewsItem
}.

(** A crawler object: its class and the attributes set by [__init__]. *)
Record crawler := {
  adapter : SiteAdapter;
  headless : bool;
  wait_sec : Z;
  delay_range : Q * Q
}.

(** [__init__(headless, wait_sec)] with the default [delay_range]
    [(1.2, 2.5)]; [_driver = None] is the [st_driver] of the state. *)
Definition __init__ (cls : SiteAdapter) (headless : bool) (wait_sec : Z)
  : crawler :=
  {| adapter := cls; headless := headless; wait_sec := wait_sec;
     delay_range := (Qmake 12 10, Qmake 25 10) |}.

(** [self.parse_page(self._driver)] on page number [page]. *)
Definition call_parse_page (self : crawler) (W : site_world) (page : Z)
  : M (list NewsItem) :=
  emit EvParse ;;
  match parse_raises (pages_of W page) with
  | Some e => raise e
  | None =>
      mret (parse_page (adapter self) (clock (pages_of W page))
                       (document (pages_of W page)))
  end.

(** The body of [for page in range(1, pages + 1)].  [ready = false] is
    the [continue] of the [TimeoutException] handler. *)
Definition page_body (self : crawler) (W : site_world) (keyword : pystr)
           (page : Z) : M unit :=
  url ← lift (build_url (adapter self) keyword page) ;
  driver_get W page url ;;
  ready ← try_except
            (wait_until W page (wait_selector (adapter self)) (wait_sec self) ;;
             mret true)
            is_TimeoutException (λ _, mret false) ;
  if ready : bool then
    items ← try_except (call_parse_page self W page)
                       is_Exception (λ _, mret []) ;
    results_extend items ;;
    sleep_uniform W page (delay_range self)
  else mret ().

(** The [finally] block. *)
Definition release : M unit :=
  d ← get_driver ;
  match d with
  | Some _ => driver_quit ;; set_driver None
  | None => mret ()
  end.

Definition crawl (self : crawler) (W : site_world) (keyword : pystr)
           (pages : Z) : M (list NewsItem) :=
  set_results [] ;;
  d ← build_driver W (headless self) ;
  set_driver (Some d) ;;
  try_finally
    (try_except
       (for_each (range 1 (pages + 1)) (page_body self W keyword))
       is_Exception (λ _, mret ()))
    release ;;
  get_results.

(** [BaseCrawler.safe_text] *)
Definition safe_text (element : WebElement) (selector : string)
           (default : pystr) : pystr :=
  match find_element element selector with
  | Some found => strip (text found)
  | None => default
  end.

(** [BaseCrawler.safe_attr] *)
Definition safe_attr (element : WebElement) (selector attr : string)
           (default : pystr) : pystr :=
  match find_element element selector with
  | Some found =>
      match get_attribute found attr with
      | Some v => por v default
      | None => default
      end
  | None => default
  end.

End BaseCrawler.

(* ===================================================================== *)
(** ** Site crawlers                                                     *)
(* ===================================================================== *)

(** The first selector of [sels] that matches anything gives the cards
    ([for sel in ...: cards = ...; if cards: break]). *)
Fixpoint first_cards (driver : WebElement) (sels : list string)
  : list WebElement :=
  match sels with
  | [] => []
  | sel :: rest =>
      match find_elements driver sel with
      | [] => first_cards driver rest
      | cards => cards
      end
  end.

(** The [for card in cards] loop shared by the three [parse_page]
    methods: [card_item] is the loop body, [None] its [continue].
    [clock n] is what [datetime.now()] shows when the record appended at
    index [n] is constructed. *)
Fixpoint parse_loop (card_item : pystr -> WebElement -> option NewsItem)
         (clock : nat -> pystr) (cards : list WebElement)
         (items : list NewsItem) : list NewsItem :=
  match cards with
  | [] => items
  | card :: rest =>
      match card_item (clock (length items)) card with
      | None => parse_loop card_item clock rest items
      | Some item => parse_loop card_item clock rest (items ++ [item])
      end
  end.

(** [kw=quote_plus(keyword)] followed by [_BASE.format(kw=kw, name=n)]. *)
Definition format_url (base : string) (keyword : pystr)
           (name : string) (n : Z) : res pystr :=
  match quote_plus keyword with
  | Ok kw => format base [("kw"%string, kw); (name, str_of_int n)]
  | Exc e => Exc e
  end.

(** The literal "알 수 없음" of the Naver and Daum crawlers. *)
Definition press_unknown : pystr := [50508; 32; 49688; 32; 50630; 51020]%N.

Module NaverCrawler.
Import BaseCrawler.

Definition SITE_KEY : pystr := py "naver".

Definition _BASE : string :=
  "https://search.naver.com/search.naver?where=news&query={kw}&start={start}&sort=1".

Definition build_url (keyword : pystr) (page : Z) : res pystr :=
  let start := (page - 1) * 10 + 1 in
  format_url _BASE keyword "start" start.

Definition wait_selector : string := "ul.list_news > li".

(** The literals "전", ".", "시간", "일". *)
Definition time_markers : list pystr :=
  [[51204]; [46]; [49884; 44036]; [51068]]%N.

Fixpoint first_time_text (spans : list WebElement) : option pystr :=
  match spans with
  | [] => None
  | span :: rest =>
      let t := strip (text span) in
      if existsb (contains t) time_markers then Some t
      else first_time_text rest
  end.

Definition _extract_time (card : WebElement) : pystr :=
  let spans := find_elements card "span.info" in
  match first_time_text spans with
  | Some t => t
  | None =>
      match last spans with
      | Some span => strip (text span)
      | None => []
      end
  end.

Definition card_item (now : pystr) (card : WebElement) : option NewsItem :=
  let title := safe_text card "a.news_tit" [] in
  if negb (truthy title) then None
  else
    let press := por (safe_text card "a.info.press" [])
                     (safe_text card "a.press" []) in
    let pub_time := _extract_time card in
    let url := safe_attr card "a.news_tit" "href" [] in
    Some (mkNewsItem title (por press press_unknown) pub_time url
                     SITE_KEY now).

Definition parse_page (clock : nat -> pystr) (driver : WebElement)
  : list NewsItem :=
  let cards := find_elements driver "ul.list_news > li.bx" in
  parse_loop card_item clock cards [].

Definition class : SiteAdapter :=
  {| BaseCrawler.SITE_KEY := SITE_KEY;
     BaseCrawler.build_url := build_url;
     BaseCrawler.wait_selector := wait_selector;
     BaseCrawler.parse_page := parse_page |}.

End NaverCrawler.

Module DaumCrawler.
Import BaseCrawler.

Definition SITE_KEY : pystr := py "daum".

Definition _BASE : string :=
  "https://search.daum.net/search?w=news&q={kw}&p={page}&spacing=0&sort=recency".

Definition build_url (keyword : pystr) (page : Z) : res pystr :=
  format_url _BASE keyword "page" page.

Definition wait_selector : string :=
  "div#newsSearchMainList, ul.list_news, div.wrap_g".

Definition card_item (now : pystr) (card : WebElement) : option NewsItem :=
  let title := por (safe_text card "a.tit_main" [])
              (por (safe_text card "a.link_txt" [])
              (por (safe_text card "a.item-title" [])
                   (safe_text card "a.tit_g" []))) in
  if negb (truthy title) then None
  else
    let url := por (safe_attr card "a.tit_main" "href" [])
              (por (safe_attr card "a.link_txt" "href" [])
                   (safe_attr card "a.item-title" "href" [])) in
    let press := por (safe_text card "span.name_cp" [])
                (por (safe_text card "span.txt_cp" [])
                     (safe_text card "span.info_txt" [])) in
    let pub_time := por (safe_text card "span.num_date" [])
                   (por (safe_text card "span.date_txt" [])
                        (safe_text card "span.info_date" [])) in
    Some (mkNewsItem title (por press press_unknown) pub_time url
                     SITE_KEY now).

Definition parse_page (clock : nat -> pystr) (driver : WebElement)
  : list NewsItem :=
  let cards :=
    first_cards driver ["li.g_item"; "div.cont_inner"; "li[data-docid]"]%string in
  parse_loop card_item clock cards [].

Definition class : SiteAdapter :=
  {| BaseCrawler.SITE_KEY := SITE_KEY;
     BaseCrawler.build_url := build_url;
     BaseCrawler.wait_selector := wait_selector;
     BaseCrawler.parse_page := parse_page |}.

End DaumCrawler.

Module HankyungCrawler.
Import BaseCrawler.

Definition SITE_KEY : pystr := py "hankyung".

Definition _BASE : string :=
  "https://www.hankyung.com/search?search_str={kw}&page={page}&type=news&sort=date".

Definition build_url (keyword : pystr) (page : Z) : res pystr :=
  format_url _BASE keyword "page" page.

Definition wait_selector : string :=
  "ul.list-news, div.news-list, article.news-item".

(** The literal "한국경제". *)
Definition press_own : pystr := [54620; 44397; 44221; 51228]%N.

Definition card_item (now : pystr) (card : WebElement) : option NewsItem :=
  let title := por (safe_text card ".news-tit" [])
              (por (safe_text card "h3.title a" [])
              (por (safe_text card "a.tit" [])
                   (safe_text card ".tit" []))) in
  if negb (truthy title) then None
  else
    let url := por (safe_attr card ".news-tit" "href" [])
              (por (safe_attr card "h3.title a" "href" [])
                   (safe_attr card "a.tit" "href" [])) in
    let url := if truthy url && startswith url (py "/")
               then py "https://www.hankyung.com" ++ url else url in
    let press := por (safe_text card "span.author" [])
                (por (safe_text card "span.reporter" []) press_own) in
    let pub_time := por (safe_text card "span.date" [])
                   (por (safe_text card "time" [])
                        (safe_attr card "time" "datetime" [])) in
    Some (mkNewsItem title press pub_time url SITE_KEY now).

Definition parse_page (clock : nat -> pystr) (driver : WebElement)
  : list NewsItem :=
  let cards :=
    first_cards driver ["li.item"; "li.news-item"; "article.list-item"]%string in
  parse_loop card_item clock cards [].

Definition class : SiteAdapter :=
  {| BaseCrawler.SITE_KEY := SITE_KEY;
     BaseCrawler.build_url := build_url;
     BaseCrawler.wait_selector := wait_selector;
     BaseCrawler.parse_page := parse_page |}.

End HankyungCrawler.

(* ===================================================================== *)
(** ** MultiSiteCrawler                                                  *)
(* ===================================================================== *)

Module MultiSiteCrawler.

(** The registry, in insertion order. *)
Definition _REGISTRY : list (pystr * BaseCrawler.SiteAdapter) :=
  [ (py "naver", NaverCrawler.class);
    (py "daum", DaumCrawler.class);
    (py "hankyung", HankyungCrawler.class) ].

(** [list(cls._REGISTRY.keys())] *)
Definition list_sites : list pystr := List.map fst _REGISTRY.

(** [_REGISTRY[k]]; [None] is [KeyError]. *)
Definition registry_get (k : pystr) : option BaseCrawler.SiteAdapter :=
  snd <$> List.find (λ kv, bool_decide (fst kv = k)) _REGISTRY.

(** The list comprehension building [self.crawlers]. *)
Fixpoint make_crawlers (target_keys : list pystr) (headless : bool)
         (wait_sec : Z) : res (list BaseCrawler.crawler) :=
  match target_keys with
  | [] => Ok []
  | k :: rest =>
      match registry_get k with
      | None => Exc KeyError
      | Some cls =>
          match make_crawlers rest headless wait_sec with
          | Ok cs => Ok (BaseCrawler.__init__ cls headless wait_sec :: cs)
          | Exc e => Exc e
          end
      end
  end.

(** [__init__(sites, headless, wait_sec)]: the crawlers of the new
    object, or the [ValueError] raised. *)
Definition __init__ (sites : option (list pystr)) (headless : bool)
           (wait_sec : Z) : res (list BaseCrawler.crawler) :=
  let target_keys :=
    match sites with
    | Some (k :: ks) => k :: ks
    | _ => list_sites
    end in
  let invalid : gset pystr :=
    list_to_set target_keys ∖ list_to_set list_sites in
  if decide (invalid = ∅)
  then make_crawlers target_keys headless wait_sec
  else Exc (ValueError invalid list_sites).

(** [item.url.strip() if item.url.strip() else item.title.strip()] *)
Definition key (item : NewsItem) : pystr :=
  if truthy (strip (url item)) then strip (url item) else strip (title item).

(** The [for item in items] loop of [_deduplicate], with its two mutable
    locals. *)
Fixpoint dedup_loop (items : list NewsItem) (seen : gset pystr)
         (unique : list NewsItem) : list NewsItem :=
  match items with
  | [] => unique
  | item :: rest =>
      if decide (key item ∈ seen)
      then dedup_loop rest seen unique
      else dedup_loop rest ({[key item]} ∪ seen) (unique ++ [item])
  end.

Definition _deduplicate (items : list NewsItem) : list NewsItem :=
  dedup_loop items ∅ [].

(** [for crawler in self.crawlers]: the crawler at position [i] of the
    list runs in the browser session [W i]. *)
Fixpoint crawl_loop (crawlers : list BaseCrawler.crawler)
         (W : nat -> site_world) (i : nat) (keyword : pystr)
         (pages_per_site : Z) (all_items : list NewsItem)
  : M (list NewsItem) :=
  match crawlers with
  | [] => mret all_items
  | crawler :: rest =>
      items ← BaseCrawler.crawl crawler (W i) keyword pages_per_site ;
      crawl_loop rest W (S i) keyword pages_per_site (all_items ++ items)
  end.

Definition crawl (self : list BaseCrawler.crawler) (W : nat -> site_world)
           (keyword : pystr) (pages_per_site : Z) : M (list NewsItem) :=
  all_items ← crawl_loop self W 0 keyword pages_per_site [] ;
  mret (_deduplicate all_items).

End MultiSiteCrawler.

(** [main.run_pipeline], step 1: construct the [MultiSiteCrawler] with its
    defaults, then crawl. *)
Definition run_pipeline_crawl (keyword : pystr) (pages_per_site : Z)
           (sites : option (list pystr)) (W : nat -> site_world)
  : M (list NewsItem) :=
  self ← lift (MultiSiteCrawler.__init__ sites true 8) ;
  MultiSiteCrawler.crawl self W keyword pages_per_site.

(** The state before anything has run. *)
Definition initial_state : state := mkState None [] 0 [].

(* ===================================================================== *)
(** ** Vocabulary of the properties                                      *)
(* ===================================================================== *)

(** The specification's reading of the de-duplication pass: a record is
    kept exactly when no record before it in the list has the same key.
    [earlier] is the list of all records already passed, kept or dropped. *)
Fixpoint first_seen (earlier items : list NewsItem) : list NewsItem :=
  match items with
  | [] => []
  | item :: rest =>
      if decide (MultiSiteCrawler.key item ∈ List.map MultiSiteCrawler.key earlier)
      then first_seen (earlier ++ [item]) rest
      else item :: first_seen (earlier ++ [item]) rest
  end.

(** A record that has a title. *)
Definition has_title (item : NewsItem) : Prop := title item ≠ [].

(** The crawlers built for a list of known keys: one per requested key,
    in request order, each of the class registered under its key. *)
Definition built_for (headless : bool) (wait_sec : Z)
           (k : pystr) (c : BaseCrawler.crawler) : Prop :=
  MultiSiteCrawler.registry_get k = Some (BaseCrawler.adapter c)
  ∧ BaseCrawler.SITE_KEY (BaseCrawler.adapter c) = k
  ∧ BaseCrawler.headless c = headless
  ∧ BaseCrawler.wait_sec c = wait_sec.

(** What a page turns out to be for the driving loop. *)

(** The exception, if any, with which fetching page [page] fails outside
    the per-page handlers: [driver.get] raises, or the readiness wait
    raises something that is not a [TimeoutException]. *)
Definition fetch_failure (W : site_world) (page : Z) : option exn :=
  match get_raises (pages_of W page) with
  | Some e => Some e
  | None =>
      match wait_raises (pages_of W page) with
      | Some e => if is_TimeoutException e then None else Some e
      | None => None
      end
  end.

(** Page [page] neither aborts the run nor escapes it: its URL can be
    built, navigation succeeds, the wait succeeds or times out, and
    extraction (when it is reached) returns or raises an [Exception]. *)
Definition recoverable (self : BaseCrawler.crawler) (W : site_world)
           (keyword : pystr) (page : Z) : bool :=
  match BaseCrawler.build_url (BaseCrawler.adapter self) keyword page,
        get_raises (pages_of W page) with
  | Ok _, None =>
      match wait_raises (pages_of W page) with
      | Some e => is_TimeoutException e
      | None =>
          match parse_raises (pages_of W page) with
          | Some e => is_Exception e
          | None => true
          end
      end
  | _, _ => false
  end.

(** The URL of page [page] (empty when it cannot be built). *)
Definition url_of (self : BaseCrawler.crawler) (keyword : pystr) (page : Z)
  : pystr :=
  match BaseCrawler.build_url (BaseCrawler.adapter self) keyword page with
  | Ok u => u
  | Exc _ => []
  end.

(** The records extracted from page [page]: those of [parse_page] when the
    page got ready and extraction returned, none otherwise. *)
Definition page_items (self : BaseCrawler.crawler) (W : site_world)
           (page : Z) : list NewsItem :=
  match wait_raises (pages_of W page), parse_raises (pages_of W page) with
  | None, None =>
      BaseCrawler.parse_page (BaseCrawler.adapter self)
        (clock (pages_of W page)) (document (pages_of W page))
  | _, _ => []
  end.

Definition ev_get (self : BaseCrawler.crawler) (keyword : pystr) (page : Z)
  : event := EvGet (url_of self keyword page).

Definition ev_wait (self : BaseCrawler.crawler) : event :=
  EvWait (BaseCrawler.wait_selector (BaseCrawler.adapter self))
         (BaseCrawler.wait_sec self).

Definition ev_sleep (self : BaseCrawler.crawler) (W : site_world) (page : Z)
  : event :=
  EvSleep (uniform (fst (BaseCrawler.delay_range self))
                   (snd (BaseCrawler.delay_range self))
                   (random_draw (pages_of W page))).

(** The events of a recoverable page: navigation and wait, then, unless the
    wait timed out, extraction and pacing. *)
Definition page_events (self : BaseCrawler.crawler) (W : site_world)
           (keyword : pystr) (page : Z) : list event :=
  [ev_get self keyword page; ev_wait self]
  ++ match wait_raises (pages_of W page) with
     | Some _ => []
     | None => [EvParse; ev_sleep self W page]
     end.

(** The events of a page on which fetching fails. *)
Definition fatal_events (self : BaseCrawler.crawler) (W : site_world)
           (keyword : pystr) (page : Z) : list event :=
  ev_get self keyword page
  :: match get_raises (pages_of W page) with
     | Some _ => []
     | None => [ev_wait self]
     end.

(** [s] with [items] appended to [results] and [evs] to the trace. *)
Definition advance (s : state) (items : list NewsItem) (evs : list event)
  : state :=
  mkState (st_driver s) (st_results s ++ items) (st_live s)
          (st_trace s ++ evs).

(** A session whose driver starts and all of whose pages [1..pages] are
    recoverable. *)
Definition healthy (self : BaseCrawler.crawler) (W : site_world)
           (keyword : pystr) (pages : Z) : Prop :=
  build_raises W = None
  ∧ Forall (λ p, recoverable self W keyword p = true) (range 1 (pages + 1)).

(** The records and the events of a run that goes through the pages [ps]
    and then, after the events [last], releases the driver. *)
Definition run_items (self : BaseCrawler.crawler) (W : site_world)
           (ps : list Z) : list NewsItem :=
  flat_map (page_items self W) ps.

Definition run_events (self : BaseCrawler.crawler) (W : site_world)
           (keyword : pystr) (ps : list Z) (last : list event) : list event :=
  [EvBuild (BaseCrawler.headless self)]
  ++ flat_map (page_events self W keyword) ps ++ last ++ [EvQuit].

Arguments run_items : simpl never.
Arguments run_events : simpl never.

(** The records and events of the healthy runs of [crawlers], the first of
    them in session [W i]. *)
Fixpoint healthy_items (crawlers : list BaseCrawler.crawler)
         (W : nat → site_world) (i : nat) (pages : Z) : list NewsItem :=
  match crawlers with
  | [] => []
  | c :: rest =>
      run_items c (W i) (range 1 (pages + 1))
      ++ healthy_items rest W (S i) pages
  end.

Fixpoint healthy_events (crawlers : list BaseCrawler.crawler)
         (W : nat → site_world) (i : nat) (keyword : pystr) (pages : Z)
  : list event :=
  match crawlers with
  | [] => []
  | c :: rest =>
      run_events c (W i) keyword (range 1 (pages + 1)) []
      ++ healthy_events rest W (S i) keyword pages
  end.

(** An event of the page loop: anything but starting or quitting a
    browser. *)
Definition loop_event (ev : event) : Prop :=
  match ev with
  | EvBuild _ | EvQuit => False
  | _ => True
  end.

(** All collected records have a title. *)
Definition titled (s : state) : Prop := Forall has_title (st_results s).

(** Since the state with [live] sessions and trace [trace], the number of
    live sessions has not moved and the trace has grown by loop events
    only. *)
Definition framed (live : nat) (trace : list event) (s : state) : Prop :=
  st_live s = live
  ∧ ∃ evs, Forall loop_event evs ∧ st_trace s = trace ++ evs.

(** A Unicode scalar value: a code point below 0x110000 that is not a
    surrogate. *)
Definition scalar_value (c : N) : bool :=
  ((c <? 55296) || (57344 <=? c) && (c <? 1114112))%N.

(** The characters [quote_plus] can produce: the ones it never escapes,
    [+] and [%]. *)
Definition url_safe (c : N) : bool :=
  (always_safe c || (c =? 43) || (c =? 37))%N.

(** The browser protocol: a session is started, used and quit; nothing is
    fetched outside a session and no second session is started inside
    one. *)
Inductive session := Closed | Open.

Definition protocol_step (st : option session) (ev : event)
  : option session :=
  match st, ev with
  | Some Closed, EvBuild _ => Some Open
  | Some Open, EvQuit => Some Closed
  | Some Open, (EvGet _ | EvWait _ _ | EvParse | EvSleep _) => Some Open
  | _, _ => None
  end.

Definition protocol (trace : list event) : option session :=
  fold_left protocol_step trace (Some Closed).

(** The URLs navigated to, in order. *)
Definition navigations (trace : list event) : list pystr :=
  omap (λ ev, match ev with EvGet u => Some u | _ => None end) trace.

(** [keeps I m V]: started in a state satisfying [I], [m] ends in a state
    satisfying [I], whether it returns or raises, and a returned value
    satisfies [V]. *)
Definition keeps {A} (I : state → Prop) (m : M A) (V : A → Prop) : Prop :=
  ∀ s, I s → I (m s).2 ∧ match (m s).1 with Ok a => V a | Exc _ => True end.

(* ===================================================================== *)
(** ** Sample records, pages and sessions                                *)
(* ===================================================================== *)

Module Samples.

(** A record with the given title and url. *)
Definition record (t u : string) : NewsItem :=
  mkNewsItem (py t) press_unknown [] (py u) (py "naver") [].


Definition text_element (t : string) : WebElement :=
  MkElement (py t) (λ _, None) (λ _, []).

(** A card that holds a title link (under the title selector of each
    site) and nothing else: no publisher, no time, no href. *)
Definition bare_card (t : string) : WebElement :=
  MkElement [] (λ _, None)
    (λ sel, if (String.eqb sel "a.news_tit" || String.eqb sel "a.tit_main"
                || String.eqb sel ".news-tit")%bool
            then [text_element t] else []).

(** A result page that shows the given cards under the first card
    selector of each site. *)
Definition page_of_cards (cards : list WebElement) : WebElement :=
  MkElement [] (λ _, None)
    (λ sel, if (String.eqb sel "ul.list_news > li.bx"
                || String.eqb sel "li.g_item" || String.eqb sel "li.item")%bool
            then cards else []).

Definition bare_page : WebElement := page_of_cards [bare_card "Title"].

Definition ready_page (cards : list WebElement) : page_world :=
  {| get_raises := None; wait_raises := None; parse_raises := None;
     document := page_of_cards cards; clock := λ _, [];
     random_draw := Qmake 1 2 |}.

(** The readiness wait times out. *)
Definition timeout_page : page_world :=
  {| get_raises := None; wait_raises := Some TimeoutException;
     parse_raises := None; document := page_of_cards []; clock := λ _, [];
     random_draw := Qmake 1 2 |}.

(** The session dies on navigation. *)
Definition dead_page : page_world :=
  {| get_raises := Some WebDriverException; wait_raises := None;
     parse_raises := None; document := page_of_cards []; clock := λ _, [];
     random_draw := Qmake 1 2 |}.

(** Extraction is interrupted from the keyboard. *)
Definition interrupted_page : page_world :=
  {| get_raises := None; wait_raises := None;
     parse_raises := Some KeyboardInterrupt;
     document := page_of_cards []; clock := λ _, [];
     random_draw := Qmake 1 2 |}.

(** Every page shows one card. *)
Definition site_fine : site_world :=
  {| build_raises := None; pages_of := λ _, ready_page [bare_card "A"] |}.

(** Page 2 behaves like [p2], every other page shows one card. *)
Definition site_with_page_2 (p2 : page_world) : site_world :=
  {| build_raises := None;
     pages_of := λ p, if p =? 2 then p2 else ready_page [bare_card "A"] |}.

Definition naver : BaseCrawler.crawler :=
  BaseCrawler.__init__ NaverCrawler.class true 8.

Definition daum : BaseCrawler.crawler :=
  BaseCrawler.__init__ DaumCrawler.class true 8.

(** The browser cannot be started. *)
Definition site_no_driver : site_world :=
  {| build_raises := Some (ChromeRaises WebDriverException);
     pages_of := λ _, ready_page [] |}.

(** The browser starts, but the script run on it right after fails. *)
Definition site_script_fails : site_world :=
  {| build_raises := Some (ScriptRaises WebDriverException);
     pages_of := λ _, ready_page [bare_card "A"] |}.

(** A Naver card with a title and a reporter ([span.author], which only
    the Hankyung crawler reads) and no publisher under Naver's own
    selectors. *)
Definition card_with_author (t a : string) : WebElement :=
  MkElement [] (λ _, None)
    (λ sel, if String.eqb sel "a.news_tit" then [text_element t]
            else if String.eqb sel "span.author" then [text_element a]
            else []).

End Samples.

(* ===================================================================== *)
(** * Properties                                                         *)
(* ===================================================================== *)

(** ** De-duplication *)

Section DedupFacts.
Import MultiSiteCrawler.

(** The loop with its [seen] set computes [first_seen], as long as [seen]
    holds exactly the keys of the records already passed. *)
Lemma dedup_loop_first_seen (items earlier : list NewsItem)
      (seen : gset pystr) (unique : list NewsItem) :
  seen = list_to_set (List.map key earlier) →
  dedup_loop items seen unique = unique ++ first_seen earlier items.
Proof.
  revert earlier seen unique.
  induction items as [|item rest IH]; intros earlier seen unique Hseen; simpl.
  - by rewrite app_nil_r.
  - assert (Hnext : {[key item]} ∪ seen
                    = list_to_set (List.map key (earlier ++ [item]))).
    { rewrite List.map_app, list_to_set_app_L. simpl. set_solver. }
    destruct (decide (key item ∈ seen)) as [Hin|Hnin];
      destruct (decide (key item ∈ List.map key earlier)) as [Hin'|Hnin'].
    + apply IH. rewrite <- Hnext. set_solver.
    + exfalso. apply Hnin'. subst seen. by apply elem_of_list_to_set in Hin.
    + exfalso. apply Hnin. subst seen. by apply elem_of_list_to_set.
    + rewrite (IH (earlier ++ [item]) _ _ Hnext).
      by rewrite <- app_assoc.
Qed.

Lemma deduplicate_first_seen (items : list NewsItem) :
  _deduplicate items = first_seen [] items.
Proof. unfold _deduplicate. by rewrite (dedup_loop_first_seen items []). Qed.

Lemma first_seen_sublist (items earlier : list NewsItem) :
  first_seen earlier items `sublist_of` items.
Proof.
  revert earlier. induction items as [|item rest IH]; intros earlier; simpl.
  - constructor.
  - destruct (decide _); [apply sublist_cons | apply sublist_skip]; apply IH.
Qed.

Lemma first_seen_fresh (items earlier : list NewsItem) (x : NewsItem) :
  x ∈ first_seen earlier items → key x ∉ List.map key earlier.
Proof.
  revert earlier. induction items as [|item rest IH]; intros earlier; simpl.
  - by intros ?%elem_of_nil.
  - assert (Hstep : x ∈ first_seen (earlier ++ [item]) rest →
                    key x ∉ List.map key earlier).
    { intros Hx%IH Hk. apply Hx. rewrite List.map_app.
      apply elem_of_app. by left. }
    destruct (decide _) as [?|Hnew]; [done|].
    intros [->|Hx]%elem_of_cons; [done | by apply Hstep].
Qed.

Lemma first_seen_NoDup (items earlier : list NewsItem) :
  NoDup (List.map key (first_seen earlier items)).
Proof.
  revert earlier. induction items as [|item rest IH]; intros earlier; simpl.
  - constructor.
  - destruct (decide _); [apply IH|].
    simpl. apply NoDup_cons. split; [|apply IH].
    intros Hdup. apply list_elem_of_In, in_map_iff in Hdup as (y & Hy & Hin).
    apply list_elem_of_In, first_seen_fresh in Hin. apply Hin.
    rewrite List.map_app, Hy. apply elem_of_app. right. simpl. set_solver.
Qed.

Lemma first_seen_cover (items earlier : list NewsItem) (x : NewsItem) :
  x ∈ items →
  key x ∈ List.map key earlier ∨ key x ∈ List.map key (first_seen earlier items).
Proof.
  revert earlier. induction items as [|item rest IH]; intros earlier; simpl.
  - by intros ?%elem_of_nil.
  - intros [->|Hx]%elem_of_cons.
    + destruct (decide _); [by left | right; simpl; set_solver].
    + destruct (IH (earlier ++ [item]) Hx) as [Hk|Hk].
      * rewrite List.map_app in Hk. apply elem_of_app in Hk as [Hk|Hk].
        -- by left.
        -- simpl in Hk. apply list_elem_of_singleton in Hk. rewrite Hk.
           destruct (decide _); [by left | right; simpl; set_solver].
      * destruct (decide _); [by right | right; simpl; set_solver].
Qed.

Lemma first_seen_app (l1 l2 earlier : list NewsItem) :
  first_seen earlier (l1 ++ l2)
  = first_seen earlier l1 ++ first_seen (earlier ++ l1) l2.
Proof.
  revert earlier. induction l1 as [|x l1 IH]; intros earlier; simpl.
  - by rewrite app_nil_r.
  - rewrite IH, <- app_assoc. simpl. by destruct (decide _).
Qed.

(** Only the keys of the earlier records matter. *)
Lemma first_seen_ext (items e1 e2 : list NewsItem) :
  (∀ k, k ∈ List.map key e1 ↔ k ∈ List.map key e2) →
  first_seen e1 items = first_seen e2 items.
Proof.
  revert e1 e2. induction items as [|item rest IH]; intros e1 e2 Heq; simpl.
  - done.
  - assert (Hrest : first_seen (e1 ++ [item]) rest
                    = first_seen (e2 ++ [item]) rest).
    { apply IH. intros k. rewrite !List.map_app, !elem_of_app.
      by rewrite Heq. }
    rewrite Hrest.
    destruct (decide (key item ∈ List.map key e1)) as [H1|H1];
      destruct (decide (key item ∈ List.map key e2)) as [H2|H2];
      try done; exfalso; [apply H2, Heq, H1 | apply H1, Heq, H2].
Qed.

(** A record whose key was already seen leaves no mark on what follows. *)
Lemma first_seen_drop (pre post earlier : list NewsItem) (b : NewsItem) :
  key b ∈ List.map key (earlier ++ pre) →
  first_seen earlier (pre ++ b :: post) = first_seen earlier (pre ++ post).
Proof.
  intros Hb. rewrite !first_seen_app. f_equal. simpl.
  rewrite decide_True by done.
  apply first_seen_ext. intros k.
  rewrite List.map_app, elem_of_app. simpl.
  rewrite list_elem_of_singleton. split; [|by left].
  intros [? | ->]; done.
Qed.

End DedupFacts.

(** C1: [_deduplicate] keeps, in their original order and unchanged, exactly
    the records that are the first of their key, where the key is the
    stripped url when that is non-empty and the stripped title otherwise.
    The loop over a [seen] set equals the specification's reading
    [first_seen]; its result is a subsequence of the input with pairwise
    distinct keys, every key of the input is still present, and the record
    at any position is kept exactly when no record before it has its key. *)
Theorem C1_deduplicate_first_seen_wins :
  ∀ items : list NewsItem,
    MultiSiteCrawler._deduplicate items = first_seen [] items
    ∧ MultiSiteCrawler._deduplicate items `sublist_of` items
    ∧ NoDup (List.map MultiSiteCrawler.key (MultiSiteCrawler._deduplicate items))
    ∧ List.map MultiSiteCrawler.key items
        ⊆ List.map MultiSiteCrawler.key (MultiSiteCrawler._deduplicate items)
    ∧ (∀ (l1 l2 : list NewsItem) (x : NewsItem),
         MultiSiteCrawler._deduplicate (l1 ++ x :: l2)
         = MultiSiteCrawler._deduplicate l1
             ++ (if decide (MultiSiteCrawler.key x ∈ List.map MultiSiteCrawler.key l1)
                 then [] else [x])
             ++ first_seen (l1 ++ [x]) l2)
    ∧ (∀ r : NewsItem,
         MultiSiteCrawler.key r
         = match strip (url r) with
           | [] => strip (title r)
           | c :: u => c :: u
           end).
Proof.
  intros items. rewrite !deduplicate_first_seen.
  split; [done|]. split; [apply first_seen_sublist|].
  split; [apply first_seen_NoDup|]. split; [|split].
  - intros k Hk. apply list_elem_of_In, in_map_iff in Hk as (x & <- & Hx).
    apply list_elem_of_In in Hx.
    destruct (first_seen_cover items [] x Hx) as [Hnil|Hin]; [|done].
    simpl in Hnil. by apply elem_of_nil in Hnil.
  - intros l1 l2 x. rewrite !deduplicate_first_seen, first_seen_app. simpl.
    by destruct (decide _).
  - intros r. unfold MultiSiteCrawler.key. by destruct (strip (url r)).
Qed.

(** The three-record example of the specification: the second record with
    url "a" is dropped, not the first. *)
Example deduplicate_a_b_a :
  MultiSiteCrawler._deduplicate
    [Samples.record "1" "a"; Samples.record "2" "b"; Samples.record "3" "a"]
  = [Samples.record "1" "a"; Samples.record "2" "b"].
Proof. vm_compute. reflexivity. Qed.

(** C10: keys taken from urls and keys taken from titles live in one set.  A
    record [b] with an empty stripped url is dropped whenever its stripped
    title equals the key of a record [a] before it, whichever field that
    key came from: the result is the one the list without [b] gives. *)
Theorem C10_url_and_title_keys_share_one_space :
  ∀ (before between after : list NewsItem) (a b : NewsItem),
    strip (url b) = [] →
    MultiSiteCrawler.key a = strip (title b) →
    MultiSiteCrawler._deduplicate (before ++ a :: between ++ b :: after)
    = MultiSiteCrawler._deduplicate (before ++ a :: between ++ after).
Proof.
  intros before between after a b Hurl Hkey.
  rewrite !deduplicate_first_seen.
  replace (before ++ a :: between ++ b :: after)
    with ((before ++ a :: between) ++ b :: after) by by rewrite <- app_assoc.
  replace (before ++ a :: between ++ after)
    with ((before ++ a :: between) ++ after) by by rewrite <- app_assoc.
  apply first_seen_drop. simpl.
  assert (Hb : MultiSiteCrawler.key b = MultiSiteCrawler.key a).
  { unfold MultiSiteCrawler.key at 1. by rewrite Hurl, Hkey. }
  rewrite Hb, List.map_app. apply elem_of_app. right. simpl. set_solver.
Qed.

(** The url "X" of an earlier record shadows the title "X" of a later
    record without url. *)
Lemma C10_witness :
  strip (url (Samples.record "X" "")) = []
  ∧ MultiSiteCrawler.key (Samples.record "other" "X")
    = strip (title (Samples.record "X" ""))
  ∧ MultiSiteCrawler._deduplicate
      ([] ++ Samples.record "other" "X" :: [] ++ Samples.record "X" "" :: [])
    = MultiSiteCrawler._deduplicate ([] ++ Samples.record "other" "X" :: [] ++ []).
Proof.
  split; [reflexivity|]. split; [reflexivity|].
  apply (C10_url_and_title_keys_share_one_space
           [] [] [] (Samples.record "other" "X") (Samples.record "X" ""));
    reflexivity.
Defined.

(** ** Site selection *)

Section RegistryFacts.
Import MultiSiteCrawler.

Lemma list_sites_eq : list_sites = [py "naver"; py "daum"; py "hankyung"].
Proof. reflexivity. Qed.

Lemma registry_get_known (k : pystr) :
  k ∈ list_sites →
  ∃ cls, registry_get k = Some cls ∧ BaseCrawler.SITE_KEY cls = k.
Proof.
  rewrite list_sites_eq.
  intros Hk. repeat (apply elem_of_cons in Hk as [->|Hk]);
    [ exists NaverCrawler.class | exists DaumCrawler.class
    | exists HankyungCrawler.class | by apply elem_of_nil in Hk ];
    split; reflexivity.
Qed.

Lemma make_crawlers_known (target : list pystr) (headless : bool)
      (wait_sec : Z) :
  Forall (λ k, k ∈ list_sites) target →
  ∃ cs, make_crawlers target headless wait_sec = Ok cs
        ∧ Forall2 (built_for headless wait_sec) target cs.
Proof.
  induction 1 as [|k rest Hk _ (cs & Hcs & Hall)]; simpl.
  - exists []. split; [done | constructor].
  - destruct (registry_get_known k Hk) as (cls & Hget & Hkey).
    rewrite Hget, Hcs. eexists. split; [done|].
    constructor; [|done]. by repeat split.
Qed.

Lemma difference_empty_iff (target known : list pystr) :
  (list_to_set target ∖ list_to_set known : gset pystr) = ∅
  ↔ Forall (λ k, k ∈ known) target.
Proof.
  rewrite Forall_forall. split.
  - intros Hempty k Hk. destruct (decide (k ∈ known)) as [|Hnot]; [done|].
    exfalso. apply (not_elem_of_empty (C := gset pystr) k).
    rewrite <- Hempty. apply elem_of_difference.
    split; rewrite elem_of_list_to_set; done.
  - intros Hall. apply set_eq. intros k.
    rewrite elem_of_difference, !elem_of_list_to_set. split.
    + intros [Hin Hnot]. exfalso. auto.
    + by intros ?%not_elem_of_empty.
Qed.

Lemma invalid_empty_iff (target : list pystr) :
  (list_to_set target ∖ list_to_set list_sites : gset pystr) = ∅
  ↔ Forall (λ k, k ∈ list_sites) target.
Proof. apply difference_empty_iff. Qed.

End RegistryFacts.

(** C3: site selection in [MultiSiteCrawler.__init__].  With [sites] absent
    or empty the three registered crawlers are built, in registry order.
    With a non-empty request: if every key is registered, one crawler per
    requested key is built and nothing is raised; otherwise a [ValueError]
    is raised whose set of invalid keys holds exactly the requested keys
    that are not registered, and the pipeline's crawl step ends with that
    error in an unchanged state: no browser is started and no page is
    fetched. *)
Theorem C3_site_selection :
  ∀ (sites : option (list pystr)) (headless : bool) (wait_sec : Z),
    MultiSiteCrawler.list_sites = [py "naver"; py "daum"; py "hankyung"]
    ∧ match sites with
      | None | Some [] =>
          MultiSiteCrawler.__init__ sites headless wait_sec
          = Ok [ BaseCrawler.__init__ NaverCrawler.class headless wait_sec;
                 BaseCrawler.__init__ DaumCrawler.class headless wait_sec;
                 BaseCrawler.__init__ HankyungCrawler.class headless wait_sec ]
      | Some (k :: ks) =>
          if decide (Forall (λ x, x ∈ MultiSiteCrawler.list_sites) (k :: ks))
          then
            ∃ cs, MultiSiteCrawler.__init__ sites headless wait_sec = Ok cs
                  ∧ Forall2 (built_for headless wait_sec) (k :: ks) cs
          else
            ∃ invalid : gset pystr,
              MultiSiteCrawler.__init__ sites headless wait_sec
              = Exc (ValueError invalid MultiSiteCrawler.list_sites)
              ∧ invalid ≠ ∅
              ∧ (∀ x, x ∈ invalid
                      ↔ x ∈ k :: ks ∧ x ∉ MultiSiteCrawler.list_sites)
              ∧ (∀ keyword pages_per_site W s,
                   run_pipeline_crawl keyword pages_per_site sites W s
                   = (Exc (ValueError invalid MultiSiteCrawler.list_sites), s))
      end.
Proof.
  intros sites headless wait_sec. split; [reflexivity|].
  destruct sites as [[|k ks]|]; [reflexivity| |reflexivity].
  assert (Hinit : ∀ h w, MultiSiteCrawler.__init__ (Some (k :: ks)) h w
            = if decide ((list_to_set (k :: ks)
                          ∖ list_to_set MultiSiteCrawler.list_sites : gset pystr) = ∅)
              then MultiSiteCrawler.make_crawlers (k :: ks) h w
              else Exc (ValueError (list_to_set (k :: ks)
                                    ∖ list_to_set MultiSiteCrawler.list_sites)
                                   MultiSiteCrawler.list_sites)) by reflexivity.
  destruct (decide (Forall _ (k :: ks))) as [Hall|Hbad].
  - rewrite Hinit, decide_True by by apply invalid_empty_iff.
    by apply make_crawlers_known.
  - assert (Hne : (list_to_set (k :: ks)
                   ∖ list_to_set MultiSiteCrawler.list_sites : gset pystr) ≠ ∅)
      by (intros He; by apply Hbad, invalid_empty_iff).
    eexists. split; [by rewrite Hinit, decide_False|].
    split; [done|]. split.
    + intros x. rewrite elem_of_difference, !elem_of_list_to_set. done.
    + intros keyword pages W s. unfold run_pipeline_crawl, mbind, M_bind, lift.
      by rewrite Hinit, decide_False.
Qed.

(** The example of the specification: "bbc" is not registered. *)
Example init_rejects_bbc :
  ∀ keyword pages W,
    run_pipeline_crawl keyword pages (Some [py "naver"; py "bbc"]) W initial_state
    = (Exc (ValueError {[py "bbc"]} MultiSiteCrawler.list_sites), initial_state).
Proof.
  intros. unfold run_pipeline_crawl, mbind, M_bind, lift.
  replace (MultiSiteCrawler.__init__ (Some [py "naver"; py "bbc"]) true 8)
    with (@Exc (list BaseCrawler.crawler)
               (ValueError {[py "bbc"]} MultiSiteCrawler.list_sites));
    [done|].
  symmetry. unfold MultiSiteCrawler.__init__.
  assert (Hset : (list_to_set [py "naver"; py "bbc"]
                  ∖ list_to_set MultiSiteCrawler.list_sites : gset pystr)
                 = {[py "bbc"]}).
  { apply set_eq. intros x. rewrite list_sites_eq.
    rewrite elem_of_difference, !elem_of_list_to_set, elem_of_singleton.
    rewrite !elem_of_cons, !elem_of_nil. split.
    - intros [[->|[->|[]]] Hnot]; [|done]. exfalso. apply Hnot. by left.
    - intros ->. split; [right; by left|]. intros [H|[H|[H|[]]]]; discriminate H. }
  rewrite Hset. rewrite decide_False; [done|].
  intros He. assert (py "bbc" ∈ (∅ : gset pystr)) by (rewrite <- He; set_solver).
  set_solver.
Qed.

(** ** Search URLs *)

(** C8: [build_url] of every site crawler is a function of [(keyword, page)]
    alone, so equal inputs give the same URL, code point for code point.
    The Naver URL carries [start = (page - 1) * 10 + 1] ([1], [11], [21] for
    pages 1, 2, 3); the Daum and Hankyung URLs carry the page number
    itself.  ([quote_plus] raises only for a keyword with a lone surrogate,
    and then [build_url] raises the same error.) *)
Theorem C8_build_url_deterministic_and_offsets :
  ∀ (keyword keyword' : pystr) (page page' : Z),
    keyword = keyword' → page = page' →
    (NaverCrawler.build_url keyword page = NaverCrawler.build_url keyword' page'
     ∧ DaumCrawler.build_url keyword page = DaumCrawler.build_url keyword' page'
     ∧ HankyungCrawler.build_url keyword page
       = HankyungCrawler.build_url keyword' page')
    ∧ NaverCrawler.build_url keyword page
      = match quote_plus keyword with
        | Ok kw =>
            Ok (py "https://search.naver.com/search.naver?where=news&query="
                  ++ kw ++ py "&start=" ++ str_of_int ((page - 1) * 10 + 1)
                  ++ py "&sort=1")
        | Exc e => Exc e
        end
    ∧ (∀ kw, quote_plus keyword = Ok kw →
         NaverCrawler.build_url keyword 1
         = Ok (py "https://search.naver.com/search.naver?where=news&query="
                 ++ kw ++ py "&start=1&sort=1")
         ∧ NaverCrawler.build_url keyword 2
           = Ok (py "https://search.naver.com/search.naver?where=news&query="
                   ++ kw ++ py "&start=11&sort=1")
         ∧ NaverCrawler.build_url keyword 3
           = Ok (py "https://search.naver.com/search.naver?where=news&query="
                   ++ kw ++ py "&start=21&sort=1"))
    ∧ DaumCrawler.build_url keyword page
      = match quote_plus keyword with
        | Ok kw =>
            Ok (py "https://search.daum.net/search?w=news&q="
                  ++ kw ++ py "&p=" ++ str_of_int page
                  ++ py "&spacing=0&sort=recency")
        | Exc e => Exc e
        end
    ∧ HankyungCrawler.build_url keyword page
      = match quote_plus keyword with
        | Ok kw =>
            Ok (py "https://www.hankyung.com/search?search_str="
                  ++ kw ++ py "&page=" ++ str_of_int page
                  ++ py "&type=news&sort=date")
        | Exc e => Exc e
        end.
Proof.
  intros keyword keyword' page page' <- <-.
  split; [done|].
  unfold NaverCrawler.build_url, DaumCrawler.build_url,
    HankyungCrawler.build_url, format_url.
  split; [|split; [|split]].
  - destruct (quote_plus keyword) as [kw|e]; [|done].
    cbv -[app str_of_int Z.add Z.sub Z.mul]. reflexivity.
  - intros kw ->. repeat split;
      cbv -[app]; reflexivity.
  - destruct (quote_plus keyword) as [kw|e]; [|done].
    cbv -[app str_of_int]. reflexivity.
  - destruct (quote_plus keyword) as [kw|e]; [|done].
    cbv -[app str_of_int]. reflexivity.
Qed.

(** The keyword "ai chip" on page 3. *)
Lemma C8_witness :
  NaverCrawler.build_url (py "ai chip") 3
  = Ok (py "https://search.naver.com/search.naver?where=news&query=ai+chip&start=21&sort=1")
  ∧ DaumCrawler.build_url (py "ai chip") 3
    = Ok (py "https://search.daum.net/search?w=news&q=ai+chip&p=3&spacing=0&sort=recency").
Proof.
  destruct (C8_build_url_deterministic_and_offsets
              (py "ai chip") (py "ai chip") 3 3 eq_refl eq_refl)
    as (_ & Hnaver & _ & Hdaum & _).
  split; [rewrite Hnaver | rewrite Hdaum]; reflexivity.
Defined.


(** ** Invariants of monadic code *)

Section KeepsRules.
Context (I : state → Prop).

Lemma keeps_ret {A} (a : A) (V : A → Prop) : V a → keeps I (mret a) V.
Proof. intros Ha s Hs. by split. Qed.

Lemma keeps_raise {A} (e : exn) (V : A → Prop) : keeps I (raise e) V.
Proof. intros s Hs. by split. Qed.

Lemma keeps_lift {A} (r : res A) (V : A → Prop) :
  (∀ a, r = Ok a → V a) → keeps I (lift r) V.
Proof. intros Hr s Hs. split; [done|]. simpl. destruct r; auto. Qed.

Lemma keeps_weaken {A} (m : M A) (V V' : A → Prop) :
  keeps I m V → (∀ a, V a → V' a) → keeps I m V'.
Proof.
  intros Hm HV s Hs. destruct (Hm s Hs) as [HI Hv]. split; [done|].
  destruct (m s).1; auto.
Qed.

Lemma keeps_bind {A B} (m : M A) (f : A → M B) (V : A → Prop)
      (V' : B → Prop) :
  keeps I m V → (∀ a, V a → keeps I (f a) V') → keeps I (m ≫= f) V'.
Proof.
  intros Hm Hf s Hs. specialize (Hm s Hs). unfold mbind, M_bind.
  destruct (m s) as [[a|e] s']; simpl in *; [|tauto].
  destruct Hm as [HI Ha]. by apply Hf.
Qed.

Lemma keeps_try_except {A} (body : M A) (catches : exn → bool)
      (handler : exn → M A) (V : A → Prop) :
  keeps I body V → (∀ e, keeps I (handler e) V) →
  keeps I (try_except body catches handler) V.
Proof.
  intros Hb Hh s Hs. specialize (Hb s Hs). unfold try_except.
  destruct (body s) as [[a|e] s']; simpl in *; [done|].
  destruct Hb as [HI _]. destruct (catches e); [by apply Hh | by split].
Qed.

Lemma keeps_try_finally {A} (body : M A) (cleanup : M unit)
      (V : A → Prop) :
  keeps I body V → keeps I cleanup (λ _, True) →
  keeps I (try_finally body cleanup) V.
Proof.
  intros Hb Hc s Hs. specialize (Hb s Hs). unfold try_finally.
  destruct (body s) as [r s']; simpl in *. destruct Hb as [HI Hr].
  specialize (Hc s' HI). destruct (cleanup s') as [[[]|e] s'']; simpl in *;
    tauto.
Qed.

Lemma keeps_for_each {A} (xs : list A) (body : A → M unit) :
  (∀ x, keeps I (body x) (λ _, True)) →
  keeps I (for_each xs body) (λ _, True).
Proof.
  intros Hbody. induction xs as [|x xs IH]; simpl.
  - by apply keeps_ret.
  - eapply keeps_bind; [apply Hbody | intros _ _; apply IH].
Qed.

End KeepsRules.

(** [build_driver] keeps what starting a browser keeps. *)
Lemma keeps_build_driver (I : state → Prop) W headless :
  (∀ s, I s → I (mkState (st_driver s) (st_results s) (S (st_live s))
                         (st_trace s ++ [EvBuild headless]))) →
  keeps I (build_driver W headless) (λ _, True).
Proof.
  intros HI. unfold build_driver.
  eapply keeps_bind with (V := λ _, True).
  { unfold webdriver_Chrome.
    destruct (build_raises W) as [[e|e]|]; [apply keeps_raise | |];
      intros s Hs; (split; [by apply HI | done]). }
  intros d _. eapply keeps_bind with (V := λ _, True).
  - unfold execute_script.
    destruct (build_raises W) as [[e|e]|];
      (apply keeps_raise || by apply keeps_ret).
  - intros _ _. by apply keeps_ret.
Qed.

(** ** Extraction never constructs a record without title *)

Lemma truthy_nonempty (s : pystr) : truthy s = true → s ≠ [].
Proof. by destruct s. Qed.

(** Every record of [parse_loop] was already in [items] or was constructed
    by the loop body from one of the cards. *)
Lemma parse_loop_elem (card_item : pystr → WebElement → option NewsItem)
      (clock : nat → pystr) (cards : list WebElement)
      (items : list NewsItem) (item : NewsItem) :
  item ∈ parse_loop card_item clock cards items →
  item ∈ items
  ∨ ∃ card now, card ∈ cards ∧ card_item now card = Some item.
Proof.
  revert items. induction cards as [|card rest IH]; intros items; simpl.
  - by left.
  - destruct (card_item (clock (length items)) card) as [new|] eqn:Hnew.
    + intros [Hin|(c & now & Hc & Hitem)]%IH.
      * apply elem_of_app in Hin as [Hin|Hin]; [by left|].
        apply list_elem_of_singleton in Hin as ->.
        right. exists card, (clock (length items)). split; [by left | done].
      * right. exists c, now. split; [by right | done].
    + intros [Hin|(c & now & Hc & Hitem)]%IH; [by left|].
      right. exists c, now. split; [by right | done].
Qed.

Lemma naver_card_item_title now card item :
  NaverCrawler.card_item now card = Some item → has_title item.
Proof.
  unfold NaverCrawler.card_item.
  destruct (truthy _) eqn:Ht; simpl; [|done].
  intros [= <-]. by apply truthy_nonempty.
Qed.

Lemma daum_card_item_title now card item :
  DaumCrawler.card_item now card = Some item → has_title item.
Proof.
  unfold DaumCrawler.card_item.
  destruct (truthy _) eqn:Ht; simpl; [|done].
  intros [= <-]. by apply truthy_nonempty.
Qed.

Lemma hankyung_card_item_title now card item :
  HankyungCrawler.card_item now card = Some item → has_title item.
Proof.
  unfold HankyungCrawler.card_item.
  destruct (truthy _) eqn:Ht; simpl; [|done].
  intros [= <-]. by apply truthy_nonempty.
Qed.

(** The classes of the registry. *)
Lemma registry_classes (cls : BaseCrawler.SiteAdapter) :
  cls ∈ List.map snd MultiSiteCrawler._REGISTRY →
  cls = NaverCrawler.class ∨ cls = DaumCrawler.class
  ∨ cls = HankyungCrawler.class.
Proof.
  simpl. rewrite !elem_of_cons, elem_of_nil. tauto.
Qed.

Lemma registry_parse_page_titles (cls : BaseCrawler.SiteAdapter) clock doc :
  cls ∈ List.map snd MultiSiteCrawler._REGISTRY →
  Forall has_title (BaseCrawler.parse_page cls clock doc).
Proof.
  intros [-> | [-> | ->]]%registry_classes; apply Forall_forall; intros item;
    simpl;
    [ unfold NaverCrawler.parse_page | unfold DaumCrawler.parse_page
    | unfold HankyungCrawler.parse_page ];
    intros [Hin|(card & now & _ & Hitem)]%parse_loop_elem;
    try (by apply elem_of_nil in Hin);
    eauto using naver_card_item_title, daum_card_item_title,
      hankyung_card_item_title.
Qed.

Section TitleInvariant.
Context (self : BaseCrawler.crawler).
Context (Hparse : ∀ clock doc,
            Forall has_title
              (BaseCrawler.parse_page (BaseCrawler.adapter self) clock doc)).

Lemma titled_emit ev : keeps titled (emit ev) (λ _, True).
Proof. intros s Hs. by split. Qed.

Lemma titled_page_body W keyword page :
  keeps titled (BaseCrawler.page_body self W keyword page) (λ _, True).
Proof.
  unfold BaseCrawler.page_body.
  eapply keeps_bind; [by apply keeps_lift with (V := λ _, True)|].
  intros url _. eapply keeps_bind with (V := λ _, True).
  { unfold driver_get. eapply keeps_bind; [apply titled_emit|].
    intros _ _. destruct (get_raises _);
      [apply keeps_raise | by apply keeps_ret]. }
  intros _ _. eapply keeps_bind with (V := λ _, True).
  { apply keeps_try_except; [|intros; by apply keeps_ret].
    eapply keeps_bind with (V := λ _, True); [|intros; by apply keeps_ret].
    unfold wait_until. eapply keeps_bind; [apply titled_emit|].
    intros _ _. destruct (wait_raises _);
      [apply keeps_raise | by apply keeps_ret]. }
  intros [|] _; [|by apply keeps_ret].
  eapply keeps_bind with (V := Forall has_title).
  { apply keeps_try_except; [|intros; by apply keeps_ret].
    unfold BaseCrawler.call_parse_page.
    eapply keeps_bind; [apply titled_emit|].
    intros _ _. destruct (parse_raises _);
      [apply keeps_raise | apply keeps_ret, Hparse]. }
  intros items Hitems. eapply keeps_bind with (V := λ _, True).
  { intros s Hs. split; [|done]. simpl. by apply Forall_app. }
  intros _ _. apply titled_emit.
Qed.

Lemma titled_crawl W keyword pages :
  keeps (λ _, True) (BaseCrawler.crawl self W keyword pages)
        (Forall has_title).
Proof.
  intros s _. split; [done|].
  unfold BaseCrawler.crawl.
  assert (Hrun : keeps titled
            (d ← build_driver W (BaseCrawler.headless self) ;
             set_driver (Some d) ;;
             try_finally
               (try_except
                  (for_each (range 1 (pages + 1))
                            (BaseCrawler.page_body self W keyword))
                  is_Exception (λ _, mret ()))
               BaseCrawler.release ;;
             get_results)
            (Forall has_title)).
  { eapply keeps_bind with (V := λ _, True).
    { apply keeps_build_driver. by intros s' Hs'. }
    intros d _. eapply keeps_bind with (V := λ _, True).
    { intros s' Hs'. by split. }
    intros _ _. eapply keeps_bind with (V := λ _, True).
    { apply keeps_try_finally.
      - apply keeps_try_except; [|intros; by apply keeps_ret].
        apply keeps_for_each. intros page. apply titled_page_body.
      - unfold BaseCrawler.release.
        eapply keeps_bind with (V := λ _, True);
          [intros s' Hs'; by split|].
        intros [d'|] _; [|by apply keeps_ret].
        eapply keeps_bind with (V := λ _, True);
          intros; intros s' Hs'; by split. }
    intros _ _ s' Hs'. by split. }
  unfold mbind at 1, M_bind at 1. simpl.
  apply Hrun. constructor.
Qed.

End TitleInvariant.

Lemma registry_get_in (k : pystr) (cls : BaseCrawler.SiteAdapter) :
  MultiSiteCrawler.registry_get k = Some cls →
  cls ∈ List.map snd MultiSiteCrawler._REGISTRY.
Proof.
  unfold MultiSiteCrawler.registry_get.
  destruct (List.find _ _) as [kv|] eqn:Hfind; [|done].
  intros [= <-]. apply List.find_some in Hfind as [Hin _].
  apply list_elem_of_In, in_map, Hin.
Qed.

Lemma make_crawlers_registry (target : list pystr) headless wait_sec cs :
  MultiSiteCrawler.make_crawlers target headless wait_sec = Ok cs →
  Forall (λ c, BaseCrawler.adapter c ∈ List.map snd MultiSiteCrawler._REGISTRY)
         cs.
Proof.
  revert cs. induction target as [|k rest IH]; intros cs; simpl.
  - intros [= <-]. constructor.
  - destruct (MultiSiteCrawler.registry_get k) as [cls|] eqn:Hget; [|done].
    destruct (MultiSiteCrawler.make_crawlers rest headless wait_sec)
      as [cs'|e]; [|done].
    intros [= <-]. constructor; [by eapply registry_get_in | by apply IH].
Qed.

Lemma init_registry sites headless wait_sec cs :
  MultiSiteCrawler.__init__ sites headless wait_sec = Ok cs →
  Forall (λ c, BaseCrawler.adapter c ∈ List.map snd MultiSiteCrawler._REGISTRY)
         cs.
Proof.
  unfold MultiSiteCrawler.__init__. destruct (decide _); [|done].
  apply make_crawlers_registry.
Qed.

Lemma titled_crawl_loop (cs : list BaseCrawler.crawler) W i keyword pages acc :
  Forall (λ c, BaseCrawler.adapter c ∈ List.map snd MultiSiteCrawler._REGISTRY)
         cs →
  Forall has_title acc →
  keeps (λ _, True)
        (MultiSiteCrawler.crawl_loop cs W i keyword pages acc)
        (Forall has_title).
Proof.
  intros Hcs. revert i acc.
  induction Hcs as [|c rest Hc _ IH]; intros i acc Hacc; simpl.
  - by apply keeps_ret.
  - eapply keeps_bind.
    + apply titled_crawl. intros clock doc.
      by apply registry_parse_page_titles.
    + intros items Hitems. apply IH. by apply Forall_app.
Qed.

Lemma deduplicate_Forall (P : NewsItem → Prop) (items : list NewsItem) :
  Forall P items → Forall P (MultiSiteCrawler._deduplicate items).
Proof.
  rewrite !Forall_forall. intros Hall x Hx. apply Hall.
  eapply elem_of_sublist; [done|].
  rewrite deduplicate_first_seen. apply first_seen_sublist.
Qed.

(** C7: no site's extraction ever constructs a record without title.  For
    each of the three crawlers a card yields no record exactly when the
    title read from it is empty, and then the loop just goes on with the
    next card; so every record of a parsed page has a title, and so has
    every record returned by a per-site run or by the aggregated crawl,
    whatever the pages do. *)
Theorem C7_no_record_without_title :
  (∀ now card,
     (NaverCrawler.card_item now card = None
      ↔ BaseCrawler.safe_text card "a.news_tit" [] = [])
     ∧ (DaumCrawler.card_item now card = None
        ↔ por (BaseCrawler.safe_text card "a.tit_main" [])
             (por (BaseCrawler.safe_text card "a.link_txt" [])
                  (por (BaseCrawler.safe_text card "a.item-title" [])
                       (BaseCrawler.safe_text card "a.tit_g" []))) = [])
     ∧ (HankyungCrawler.card_item now card = None
        ↔ por (BaseCrawler.safe_text card ".news-tit" [])
             (por (BaseCrawler.safe_text card "h3.title a" [])
                  (por (BaseCrawler.safe_text card "a.tit" [])
                       (BaseCrawler.safe_text card ".tit" []))) = []))
  ∧ Forall (λ cls,
       (∀ clock doc, Forall has_title (BaseCrawler.parse_page cls clock doc))
       ∧ (∀ headless wait_sec W keyword pages s,
            match (BaseCrawler.crawl (BaseCrawler.__init__ cls headless wait_sec)
                                     W keyword pages s).1 with
            | Ok items => Forall has_title items
            | Exc _ => True
            end))
      (List.map snd MultiSiteCrawler._REGISTRY)
  ∧ (∀ keyword pages_per_site sites W s,
       match (run_pipeline_crawl keyword pages_per_site sites W s).1 with
       | Ok items => Forall has_title items
       | Exc _ => True
       end).
Proof.
  split; [|split].
  - intros now card. repeat split;
      unfold NaverCrawler.card_item, DaumCrawler.card_item,
        HankyungCrawler.card_item;
      match goal with |- context [truthy ?t] => destruct t end;
      simpl; done.
  - apply Forall_forall. intros cls Hcls. split.
    + intros clock doc. by apply registry_parse_page_titles.
    + intros headless wait_sec W keyword pages s.
      apply (titled_crawl (BaseCrawler.__init__ cls headless wait_sec)); [|done].
      intros clock doc. by apply registry_parse_page_titles.
  - intros keyword pages sites W s.
    unfold run_pipeline_crawl, mbind, M_bind, lift.
    destruct (MultiSiteCrawler.__init__ sites true 8) as [cs|e] eqn:Hinit;
      [|done].
    unfold MultiSiteCrawler.crawl, mbind, M_bind.
    pose proof (titled_crawl_loop cs W 0%nat keyword pages []
                  (init_registry _ _ _ _ Hinit) (Forall_nil_2 _) s I) as [_ Hloop].
    destruct (MultiSiteCrawler.crawl_loop cs W 0 keyword pages [] s)
      as [[all_items|e] s']; simpl in *; [|done].
    by apply deduplicate_Forall.
Qed.

(** ** The publisher fallback *)

(** C9, as the specification has it, fails: on a page whose only card has
    a title and no publisher, the Naver and Daum crawlers give the record
    the press "알 수 없음" and the Hankyung crawler gives it "한국경제", so
    no single sentinel serves all three. *)
Lemma C9_counterexample :
  ¬ ∃ sentinel : pystr,
      ∀ cls, cls ∈ List.map snd MultiSiteCrawler._REGISTRY →
        ∀ item, item ∈ BaseCrawler.parse_page cls (λ _, []) Samples.bare_page →
          press item = sentinel.
Proof.
  intros (sentinel & Hall).
  assert (Hn : press_unknown = sentinel).
  { apply (Hall NaverCrawler.class ltac:(simpl; set_solver)
             (mkNewsItem (py "Title") press_unknown [] [] (py "naver") [])).
    vm_compute. left. }
  assert (Hh : HankyungCrawler.press_own = sentinel).
  { apply (Hall HankyungCrawler.class ltac:(simpl; set_solver)
             (mkNewsItem (py "Title") HankyungCrawler.press_own [] []
                         (py "hankyung") [])).
    vm_compute. left. }
  rewrite <- Hh in Hn. discriminate Hn.
Qed.

Lemma por_nil_l (b : pystr) : por [] b = b.
Proof. done. Qed.

(** C9, amended: when a site's own publisher selectors give no text, a
    Naver or Daum record gets the fixed press "알 수 없음", and a Hankyung
    record gets the site's own name "한국경제"; the two values differ. *)
Theorem C9_press_fallback_per_site :
  ∀ (now : pystr) (card : WebElement),
    (BaseCrawler.safe_text card "a.info.press" [] = [] →
     BaseCrawler.safe_text card "a.press" [] = [] →
     match NaverCrawler.card_item now card with
     | Some item => press item = press_unknown
     | None => True
     end)
    ∧ (BaseCrawler.safe_text card "span.name_cp" [] = [] →
       BaseCrawler.safe_text card "span.txt_cp" [] = [] →
       BaseCrawler.safe_text card "span.info_txt" [] = [] →
       match DaumCrawler.card_item now card with
       | Some item => press item = press_unknown
       | None => True
       end)
    ∧ (BaseCrawler.safe_text card "span.author" [] = [] →
       BaseCrawler.safe_text card "span.reporter" [] = [] →
       match HankyungCrawler.card_item now card with
       | Some item => press item = HankyungCrawler.press_own
       | None => True
       end)
    ∧ press_unknown ≠ HankyungCrawler.press_own.
Proof.
  intros now card.
  unfold NaverCrawler.card_item, DaumCrawler.card_item,
    HankyungCrawler.card_item.
  split; [|split; [|split]]; [intros H1 H2 | intros H1 H2 H3 | intros H1 H2 |
                              done];
    (destruct (negb (truthy _)); [done|]); simpl;
    repeat match goal with H : _ = [] |- _ => rewrite H; clear H end; done.
Qed.

(** A Naver card that names a reporter under [span.author], a selector
    only the Hankyung crawler reads: Naver still falls back. *)
Lemma C9_witness :
  match NaverCrawler.card_item [] (Samples.card_with_author "Title" "Kim") with
  | Some item => press item = press_unknown
  | None => True
  end.
Proof.
  destruct (C9_press_fallback_per_site
              [] (Samples.card_with_author "Title" "Kim")) as (Hnaver & _).
  apply Hnaver; reflexivity.
Defined.

(** ** The driving loop *)

Lemma map_seq_offset (n : nat) (a : Z) (m : nat) :
  List.map (λ i, a + Z.of_nat i) (seq m n)
  = List.map (λ i, a + Z.of_nat m + Z.of_nat i) (seq 0 n).
Proof.
  revert a m. induction n as [|n IH]; intros a m; simpl; [done|].
  f_equal; [lia|].
  rewrite (IH a (S m)), (IH (a + Z.of_nat m) 1%nat).
  apply List.map_ext. intros i. lia.
Qed.

Lemma range_split (a k b : Z) :
  a ≤ k < b → range a b = range a k ++ k :: range (k + 1) b.
Proof.
  intros Hk. unfold range.
  replace (Z.to_nat (b - a))
    with (Z.to_nat (k - a) + S (Z.to_nat (b - (k + 1))))%nat by lia.
  rewrite seq_app, List.map_app. simpl. f_equal. f_equal; [lia|].
  rewrite map_seq_offset. apply List.map_ext. intros i. lia.
Qed.

Section CrawlFacts.
Context (self : BaseCrawler.crawler) (W : site_world) (keyword : pystr).

Lemma advance_advance s i1 e1 i2 e2 :
  advance (advance s i1 e1) i2 e2 = advance s (i1 ++ i2) (e1 ++ e2).
Proof. unfold advance. simpl. by rewrite !app_assoc. Qed.

Lemma advance_nil s : advance s [] [] = s.
Proof. destruct s. unfold advance. simpl. by rewrite !app_nil_r. Qed.

(** One iteration on a recoverable page. *)
Lemma page_body_recoverable page s :
  recoverable self W keyword page = true →
  BaseCrawler.page_body self W keyword page s
  = (Ok (), advance s (page_items self W page)
                      (page_events self W keyword page)).
Proof.
  unfold recoverable, BaseCrawler.page_body, page_items, page_events,
    ev_get, ev_wait, ev_sleep, url_of, advance, driver_get, wait_until,
    BaseCrawler.call_parse_page, sleep_uniform, results_extend, emit,
    try_except, raise, lift, mbind, M_bind, mret, M_ret.
  destruct (BaseCrawler.build_url _ _ _) as [url|?]; [|done].
  destruct (get_raises _); [done|].
  destruct (wait_raises _) as [e|]; simpl.
  - intros ->. simpl. by rewrite app_nil_r, <- !app_assoc.
  - destruct (parse_raises _) as [e|]; simpl.
    + intros ->. simpl. by rewrite <- !app_assoc.
    + intros _. by rewrite <- !app_assoc.
Qed.

(** One iteration on a page where fetching fails. *)
Lemma page_body_fatal page e s :
  (∃ u, BaseCrawler.build_url (BaseCrawler.adapter self) keyword page = Ok u) →
  fetch_failure W page = Some e →
  BaseCrawler.page_body self W keyword page s
  = (Exc e, advance s [] (fatal_events self W keyword page)).
Proof.
  intros [u Hu].
  unfold fetch_failure, BaseCrawler.page_body, fatal_events,
    ev_get, ev_wait, url_of, advance, driver_get, wait_until,
    emit, try_except, raise, lift, mbind, M_bind, mret, M_ret.
  rewrite Hu.
  destruct (get_raises _) as [e'|]; simpl.
  - intros [= ->]. by rewrite app_nil_r.
  - destruct (wait_raises _) as [e'|]; [|done].
    destruct (is_TimeoutException e') eqn:Ht; [done|].
    intros [= ->]. simpl. by rewrite app_nil_r, <- !app_assoc.
Qed.

Lemma for_each_recoverable ps s :
  Forall (λ p, recoverable self W keyword p = true) ps →
  for_each ps (BaseCrawler.page_body self W keyword) s
  = (Ok (), advance s (run_items self W ps)
                      (flat_map (page_events self W keyword) ps)).
Proof.
  intros Hps. revert s. induction Hps as [|p ps Hp _ IH]; intros s; simpl.
  - by rewrite advance_nil.
  - unfold mbind, M_bind. rewrite page_body_recoverable by done.
    rewrite IH. by rewrite advance_advance.
Qed.

Lemma for_each_fatal ps1 p ps2 e s :
  Forall (λ p, recoverable self W keyword p = true) ps1 →
  (∃ u, BaseCrawler.build_url (BaseCrawler.adapter self) keyword p = Ok u) →
  fetch_failure W p = Some e →
  for_each (ps1 ++ p :: ps2) (BaseCrawler.page_body self W keyword) s
  = (Exc e, advance s (run_items self W ps1)
                      (flat_map (page_events self W keyword) ps1
                       ++ fatal_events self W keyword p)).
Proof.
  intros Hps Hu He. revert s.
  induction Hps as [|q ps1 Hq _ IH]; intros s; simpl.
  - unfold mbind, M_bind. by rewrite (page_body_fatal p e).
  - unfold mbind, M_bind. rewrite page_body_recoverable by done.
    rewrite IH. by rewrite advance_advance, <- app_assoc.
Qed.

(** The page loop never touches the driver handle. *)
Lemma page_body_driver page s :
  st_driver (BaseCrawler.page_body self W keyword page s).2 = st_driver s.
Proof.
  unfold BaseCrawler.page_body, driver_get, wait_until,
    BaseCrawler.call_parse_page, sleep_uniform, results_extend, emit,
    try_except, raise, lift, mbind, M_bind, mret, M_ret.
  destruct (BaseCrawler.build_url _ _ _); [|done].
  destruct (get_raises _); [done|].
  destruct (wait_raises _) as [e|]; simpl.
  - by destruct (is_TimeoutException e).
  - destruct (parse_raises _) as [e|]; simpl; [|done].
    by destruct (is_Exception e).
Qed.

Lemma for_each_driver ps s :
  st_driver (for_each ps (BaseCrawler.page_body self W keyword) s).2
  = st_driver s.
Proof.
  revert s. induction ps as [|p ps IH]; intros s; simpl; [done|].
  unfold mbind, M_bind. pose proof (page_body_driver p s) as Hp.
  destruct (BaseCrawler.page_body self W keyword p s) as [[[]|e] s1];
    simpl in *; [|done]. by rewrite IH.
Qed.

(** The run from the point where the driver has been started. *)
Lemma crawl_unfold pages s :
  build_raises W = None →
  BaseCrawler.crawl self W keyword pages s
  = match for_each (range 1 (pages + 1))
                   (BaseCrawler.page_body self W keyword)
                   (mkState (Some (Chrome (BaseCrawler.headless self))) []
                            (S (st_live s))
                            (st_trace s ++ [EvBuild (BaseCrawler.headless self)]))
    with
    | (r, s1) =>
        let s2 := mkState None (st_results s1) (pred (st_live s1))
                          (st_trace s1 ++ [EvQuit]) in
        match r with
        | Ok _ => (Ok (st_results s1), s2)
        | Exc e => if is_Exception e then (Ok (st_results s1), s2)
                   else (Exc e, s2)
        end
    end.
Proof.
  intros Hb.
  unfold BaseCrawler.crawl, build_driver, webdriver_Chrome, execute_script,
    set_results, set_driver, try_finally, try_except, BaseCrawler.release,
    get_driver, driver_quit, get_results, mbind, M_bind, mret, M_ret.
  rewrite Hb. simpl.
  match goal with |- context [for_each ?ps ?b ?s0] =>
    pose proof (for_each_driver ps s0) as Hdrv;
    destruct (for_each ps b s0) as [[[]|e] s1] end; simpl in *.
  - by rewrite Hdrv.
  - destruct (is_Exception e); simpl; by rewrite Hdrv.
Qed.

(** A run all of whose pages are recoverable. *)
Lemma crawl_healthy pages s :
  healthy self W keyword pages →
  BaseCrawler.crawl self W keyword pages s
  = (Ok (run_items self W (range 1 (pages + 1))),
     mkState None (run_items self W (range 1 (pages + 1))) (st_live s)
             (st_trace s
              ++ run_events self W keyword (range 1 (pages + 1)) [])).
Proof.
  intros [Hb Hps]. rewrite crawl_unfold by done.
  rewrite for_each_recoverable by done.
  unfold advance, run_events. simpl. by rewrite <- !app_assoc.
Qed.

(** A run that meets a fetch failure on page [k] after recoverable
    pages. *)
Lemma crawl_fatal ps1 k ps2 pages e s :
  build_raises W = None →
  range 1 (pages + 1) = ps1 ++ k :: ps2 →
  Forall (λ p, recoverable self W keyword p = true) ps1 →
  (∃ u, BaseCrawler.build_url (BaseCrawler.adapter self) keyword k = Ok u) →
  fetch_failure W k = Some e →
  is_Exception e = true →
  BaseCrawler.crawl self W keyword pages s
  = (Ok (run_items self W ps1),
     mkState None (run_items self W ps1) (st_live s)
             (st_trace s
              ++ run_events self W keyword ps1
                   (fatal_events self W keyword k))).
Proof.
  intros Hb Hrange Hps Hu He Hexc. rewrite crawl_unfold by done.
  rewrite Hrange, (for_each_fatal ps1 k ps2 e) by done.
  rewrite Hexc. unfold advance, run_events. simpl.
  by rewrite <- !app_assoc.
Qed.

End CrawlFacts.

(** C4: a page whose readiness wait times out adds no record, is
    navigated to once and waited for once, and the loop goes on with the
    next page.  In a run all of whose pages are recoverable and whose page
    [p] times out, the result is what the pages before [p] give followed by
    what the pages after [p] give; for three pages with page 2 timing out
    that is page 1's records followed by page 3's. *)
Theorem C4_timeout_skips_the_page_only :
  ∀ (self : BaseCrawler.crawler) (W : site_world) (keyword : pystr)
    (pages p : Z) (s : state),
    healthy self W keyword pages →
    1 ≤ p ≤ pages →
    wait_raises (pages_of W p) = Some TimeoutException →
    (∀ rest s0,
       for_each (p :: rest) (BaseCrawler.page_body self W keyword) s0
       = for_each rest (BaseCrawler.page_body self W keyword)
           (advance s0 [] [ev_get self keyword p; ev_wait self]))
    ∧ BaseCrawler.crawl self W keyword pages s
      = (Ok (run_items self W (range 1 p)
             ++ run_items self W (range (p + 1) (pages + 1))),
         mkState None
           (run_items self W (range 1 p)
            ++ run_items self W (range (p + 1) (pages + 1)))
           (st_live s)
           (st_trace s
            ++ [EvBuild (BaseCrawler.headless self)]
            ++ flat_map (page_events self W keyword) (range 1 p)
            ++ [ev_get self keyword p; ev_wait self]
            ++ flat_map (page_events self W keyword) (range (p + 1) (pages + 1))
            ++ [EvQuit]))
    ∧ (pages = 3 → p = 2 →
       (BaseCrawler.crawl self W keyword 3 s).1
       = Ok (page_items self W 1 ++ page_items self W 3)).
Proof.
  intros self W keyword pages p s Hhealthy Hp Hwait.
  assert (Hrange : range 1 (pages + 1)
                   = range 1 p ++ p :: range (p + 1) (pages + 1))
    by (apply range_split; lia).
  assert (Hrec : recoverable self W keyword p = true).
  { destruct Hhealthy as [_ Hall]. rewrite Forall_forall in Hall.
    apply Hall. rewrite Hrange. set_solver. }
  assert (Hitems : page_items self W p = [])
    by (unfold page_items; by rewrite Hwait).
  assert (Hevents : page_events self W keyword p
                    = [ev_get self keyword p; ev_wait self])
    by (unfold page_events; by rewrite Hwait).
  assert (Hcrawl :
    BaseCrawler.crawl self W keyword pages s
    = (Ok (run_items self W (range 1 p)
           ++ run_items self W (range (p + 1) (pages + 1))),
       mkState None
         (run_items self W (range 1 p)
          ++ run_items self W (range (p + 1) (pages + 1)))
         (st_live s)
         (st_trace s
          ++ [EvBuild (BaseCrawler.headless self)]
          ++ flat_map (page_events self W keyword) (range 1 p)
          ++ [ev_get self keyword p; ev_wait self]
          ++ flat_map (page_events self W keyword) (range (p + 1) (pages + 1))
          ++ [EvQuit]))).
  { rewrite (crawl_healthy self W keyword pages s Hhealthy).
    unfold run_events, run_items. rewrite Hrange, !flat_map_app.
    cbn [flat_map]. rewrite Hitems, Hevents. simpl.
    by rewrite <- !app_assoc. }
  split; [|split; [done|]].
  - intros rest s0. simpl. unfold mbind, M_bind.
    rewrite page_body_recoverable by done. by rewrite Hitems, Hevents.
  - intros -> ->. rewrite Hcrawl. simpl. unfold run_items. simpl.
    by rewrite !app_nil_r.
Qed.

(** Three Naver pages, the second of which never gets ready. *)
Lemma C4_witness :
  (BaseCrawler.crawl Samples.naver
     (Samples.site_with_page_2 Samples.timeout_page) (py "k") 3
     initial_state).1
  = Ok (page_items Samples.naver (Samples.site_with_page_2 Samples.timeout_page) 1
        ++ page_items Samples.naver
             (Samples.site_with_page_2 Samples.timeout_page) 3).
Proof.
  apply (C4_timeout_skips_the_page_only Samples.naver
           (Samples.site_with_page_2 Samples.timeout_page) (py "k") 3 2
           initial_state).
  - split; [reflexivity|]. repeat constructor.
  - lia.
  - reflexivity.
  - reflexivity.
  - reflexivity.
Defined.

(** An iteration that returns ran on a recoverable page. *)
Lemma page_body_ok_recoverable self W keyword page s s' :
  BaseCrawler.page_body self W keyword page s = (Ok (), s') →
  recoverable self W keyword page = true.
Proof.
  unfold recoverable, BaseCrawler.page_body, driver_get, wait_until,
    BaseCrawler.call_parse_page, sleep_uniform, results_extend, emit,
    try_except, raise, lift, mbind, M_bind, mret, M_ret.
  destruct (BaseCrawler.build_url _ _ _) as [url|?]; [|done].
  destruct (get_raises _); [done|].
  destruct (wait_raises _) as [e|]; simpl.
  - by destruct (is_TimeoutException e).
  - destruct (parse_raises _) as [e|]; simpl; [|done].
    by destruct (is_Exception e).
Qed.

(** C5, as the specification has it, fails: an iteration whose readiness
    wait times out ends with the wait, not with a pacing sleep. *)
Lemma C5_counterexample :
  ¬ ∀ (self : BaseCrawler.crawler) (W : site_world) (keyword : pystr)
      (page : Z) (s s' : state),
      BaseCrawler.page_body self W keyword page s = (Ok (), s') →
      ∃ evs seconds, st_trace s' = st_trace s ++ evs ++ [EvSleep seconds].
Proof.
  intros Hclaim.
  destruct (Hclaim Samples.naver
              (Samples.site_with_page_2 Samples.timeout_page) (py "k") 2
              initial_state _
              (page_body_recoverable Samples.naver
                 (Samples.site_with_page_2 Samples.timeout_page) (py "k") 2
                 initial_state eq_refl))
    as (evs & seconds & Hevs).
  change ([ev_get Samples.naver (py "k") 2] ++ [ev_wait Samples.naver]
          = evs ++ [EvSleep seconds]) in Hevs.
  apply app_inj_tail in Hevs as [_ Hlast]. discriminate Hlast.
Qed.

(** C5, amended: an iteration that goes on to the next page has navigated
    and waited.  If the wait succeeded it has then extracted (with or
    without failure) and ended with the pacing sleep, whose length is
    [random.uniform(min, max)] over the configured interval: with [u] the
    draw of [random.random()] in [[0, 1)], the length [min + (max - min) u]
    lies in [[min, max]], and draws that are [d] apart give lengths that
    are [(max - min) d] apart, so the length is spread over the interval as
    evenly as the draw is over [[0, 1)].  If the wait timed out, the
    iteration has ended there, without pacing. *)
Theorem C5_pacing_after_ready_pages_only :
  ∀ (self : BaseCrawler.crawler) (W : site_world) (keyword : pystr)
    (page : Z) (s s' : state),
    BaseCrawler.page_body self W keyword page s = (Ok (), s') →
    match wait_raises (pages_of W page) with
    | Some _ =>
        s' = advance s [] [ev_get self keyword page; ev_wait self]
    | None =>
        s' = advance s (page_items self W page)
               [ev_get self keyword page; ev_wait self; EvParse;
                EvSleep (uniform (fst (BaseCrawler.delay_range self))
                                 (snd (BaseCrawler.delay_range self))
                                 (random_draw (pages_of W page)))]
    end
    ∧ (∀ lo hi u : Q,
         (0 <= u)%Q → (u < 1)%Q → (lo <= hi)%Q →
         (lo <= uniform lo hi u)%Q ∧ (uniform lo hi u <= hi)%Q)
    ∧ (∀ lo hi u1 u2 : Q,
         (uniform lo hi u2 - uniform lo hi u1 == (hi - lo) * (u2 - u1))%Q).
Proof.
  intros self W keyword page s s' Hbody. split; [|split].
  - pose proof (page_body_ok_recoverable _ _ _ _ _ _ Hbody) as Hrec.
    rewrite page_body_recoverable in Hbody by done.
    injection Hbody as <-.
    unfold page_items, page_events. by destruct (wait_raises _).
  - intros lo hi u Hu0 Hu1 Hrange. unfold uniform. split; nra.
  - intros lo hi u1 u2. unfold uniform. ring.
Qed.

(** Page 1 of the sample session gets ready: the iteration ends with a
    sleep of [uniform 1.2 2.5 (1/2)] seconds. *)
Lemma C5_witness :
  (BaseCrawler.page_body Samples.naver
     (Samples.site_with_page_2 Samples.timeout_page) (py "k") 1
     initial_state).2
  = advance initial_state
      (page_items Samples.naver
         (Samples.site_with_page_2 Samples.timeout_page) 1)
      [ev_get Samples.naver (py "k") 1; ev_wait Samples.naver; EvParse;
       EvSleep (uniform (Qmake 12 10) (Qmake 25 10) (Qmake 1 2))].
Proof.
  apply (C5_pacing_after_ready_pages_only Samples.naver
           (Samples.site_with_page_2 Samples.timeout_page) (py "k") 1
           initial_state).
  reflexivity.
Defined.

(** ** The driver is released *)

Section FrameInvariant.
Context (self : BaseCrawler.crawler) (W : site_world) (keyword : pystr).
Context (live : nat) (trace : list event).

Lemma framed_emit ev : loop_event ev → keeps (framed live trace) (emit ev) (λ _, True).
Proof.
  intros Hev s (Hlive & evs & Hevs & Htrace). split; [|done].
  split; [done|]. exists (evs ++ [ev]). split.
  - apply Forall_app. split; [done | by constructor].
  - simpl. by rewrite Htrace, <- app_assoc.
Qed.

Lemma framed_page_body page :
  keeps (framed live trace) (BaseCrawler.page_body self W keyword page) (λ _, True).
Proof.
  unfold BaseCrawler.page_body.
  eapply keeps_bind; [by apply keeps_lift with (V := λ _, True)|].
  intros url _. eapply keeps_bind with (V := λ _, True).
  { unfold driver_get. eapply keeps_bind; [by apply framed_emit|].
    intros _ _. destruct (get_raises _);
      [apply keeps_raise | by apply keeps_ret]. }
  intros _ _. eapply keeps_bind with (V := λ _, True).
  { apply keeps_try_except; [|intros; by apply keeps_ret].
    eapply keeps_bind with (V := λ _, True); [|intros; by apply keeps_ret].
    unfold wait_until. eapply keeps_bind; [by apply framed_emit|].
    intros _ _. destruct (wait_raises _);
      [apply keeps_raise | by apply keeps_ret]. }
  intros [|] _; [|by apply keeps_ret].
  eapply keeps_bind with (V := λ _, True).
  { apply keeps_try_except; [|intros; by apply keeps_ret].
    unfold BaseCrawler.call_parse_page.
    eapply keeps_bind; [by apply framed_emit|].
    intros _ _. destruct (parse_raises _);
      [apply keeps_raise | by apply keeps_ret]. }
  intros items _. eapply keeps_bind with (V := λ _, True).
  { intros s Hs. by split. }
  intros _ _. by apply framed_emit.
Qed.

Lemma framed_for_each ps :
  keeps (framed live trace) (for_each ps (BaseCrawler.page_body self W keyword))
        (λ _, True).
Proof. apply keeps_for_each. intros page. apply framed_page_body. Qed.

End FrameInvariant.

Lemma crawl_no_driver self W keyword pages e s :
  build_raises W = Some (ChromeRaises e) →
  BaseCrawler.crawl self W keyword pages s
  = (Exc e, mkState (st_driver s) [] (st_live s) (st_trace s)).
Proof.
  intros Hb.
  unfold BaseCrawler.crawl, build_driver, webdriver_Chrome, set_results,
    raise, mbind, M_bind.
  by rewrite Hb.
Qed.

(** When [execute_script] raises in [build_driver], the browser that
    [webdriver.Chrome] has started is never assigned to [self._driver];
    the exception leaves [crawl] before its [try], and nothing quits the
    browser. *)
Lemma crawl_script_fails self W keyword pages e s :
  build_raises W = Some (ScriptRaises e) →
  BaseCrawler.crawl self W keyword pages s
  = (Exc e, mkState (st_driver s) [] (S (st_live s))
                    (st_trace s ++ [EvBuild (BaseCrawler.headless self)])).
Proof.
  intros Hb.
  unfold BaseCrawler.crawl, build_driver, webdriver_Chrome, execute_script,
    set_results, raise, mbind, M_bind.
  by rewrite Hb.
Qed.

(** Once [build_driver] has returned, every way out of [crawl] goes
    through the [finally] block: the driver handle is [None] again, no
    session started by the run is live, and the quit is the run's last
    event. *)
Lemma crawl_releases_built_driver
      (self : BaseCrawler.crawler) (W : site_world) (keyword : pystr)
      (pages : Z) (s : state) :
  build_raises W = None →
  st_driver (BaseCrawler.crawl self W keyword pages s).2 = None
  ∧ st_live (BaseCrawler.crawl self W keyword pages s).2 = st_live s
  ∧ ∃ evs,
      Forall loop_event evs
      ∧ st_trace (BaseCrawler.crawl self W keyword pages s).2
        = st_trace s ++ [EvBuild (BaseCrawler.headless self)]
            ++ evs ++ [EvQuit].
Proof.
  intros Hb. rewrite crawl_unfold by done.
  match goal with |- context [for_each ?ps ?b ?s0] =>
    pose proof (framed_for_each self W keyword (S (st_live s))
                  (st_trace s0) ps s0) as Hframe;
    destruct (for_each ps b s0) as [r s1] end.
  destruct Hframe as [(Hlive & evs & Hevs & Htrace) _].
  { split; [done|]. exists []. split; [constructor | by rewrite app_nil_r]. }
  simpl in Hlive, Htrace.
  assert (Hout : ∀ r' : res (list NewsItem),
            st_driver (r', mkState None (st_results s1) (pred (st_live s1))
                                   (st_trace s1 ++ [EvQuit])).2 = None
            ∧ st_live (r', mkState None (st_results s1) (pred (st_live s1))
                                   (st_trace s1 ++ [EvQuit])).2 = st_live s
            ∧ ∃ evs0, Forall loop_event evs0
                ∧ st_trace (r', mkState None (st_results s1)
                                        (pred (st_live s1))
                                        (st_trace s1 ++ [EvQuit])).2
                  = st_trace s ++ [EvBuild (BaseCrawler.headless self)]
                      ++ evs0 ++ [EvQuit]).
  { intros r'. simpl. rewrite Hlive. split; [done|]. split; [done|].
    exists evs. split; [done|]. by rewrite Htrace, <- !app_assoc. }
  destruct r as [[]|e]; [apply Hout|].
  destruct (is_Exception e); apply Hout.
Qed.

(** C6: the claim holds on every way out of [crawl] that starts inside its
    [try] (see [crawl_releases_built_driver]), but [build_driver] is
    called before the [try]: when the script it runs on the fresh browser
    raises, [crawl] is left with the browser running.  Here the browser
    starts and the script fails: the run raises, one session is live, and
    the only event is the start; nothing has quit it. *)
Theorem C6_script_failure_leaves_the_browser_running :
  BaseCrawler.crawl Samples.naver Samples.site_script_fails (py "k") 3
    initial_state
  = (Exc WebDriverException, mkState None [] 1 [EvBuild true]).
Proof. reflexivity. Qed.

Example interrupt_escapes_crawl :
  (BaseCrawler.crawl Samples.naver
     (Samples.site_with_page_2 Samples.interrupted_page)
     (py "k") 3 initial_state).1 = Exc KeyboardInterrupt.
Proof. reflexivity. Qed.

(** ** One site's failure and the other sites *)

Lemma crawl_loop_app cs1 cs2 W i keyword pages acc s :
  MultiSiteCrawler.crawl_loop (cs1 ++ cs2) W i keyword pages acc s
  = match MultiSiteCrawler.crawl_loop cs1 W i keyword pages acc s with
    | (Ok acc', s') =>
        MultiSiteCrawler.crawl_loop cs2 W (i + length cs1) keyword pages acc' s'
    | (Exc e, s') => (Exc e, s')
    end.
Proof.
  revert i acc s. induction cs1 as [|c cs1 IH]; intros i acc s; simpl.
  - by rewrite Nat.add_0_r.
  - unfold mbind, M_bind.
    destruct (BaseCrawler.crawl c (W i) keyword pages s) as [[items|e] s1];
      [|done].
    rewrite IH. by replace (S i + length cs1)%nat with (i + S (length cs1))%nat
      by lia.
Qed.

Lemma crawl_loop_healthy cs W i keyword pages acc s :
  (∀ j c, cs !! j = Some c → healthy c (W (i + j)%nat) keyword pages) →
  ∃ s',
    MultiSiteCrawler.crawl_loop cs W i keyword pages acc s
    = (Ok (acc ++ healthy_items cs W i pages), s')
    ∧ st_trace s' = st_trace s ++ healthy_events cs W i keyword pages
    ∧ st_live s' = st_live s.
Proof.
  revert i acc s. induction cs as [|c cs IH]; intros i acc s Hall;
    cbn [MultiSiteCrawler.crawl_loop healthy_items healthy_events].
  - exists s. by rewrite !app_nil_r.
  - unfold mbind, M_bind.
    rewrite crawl_healthy
      by (specialize (Hall 0%nat c eq_refl); by rewrite Nat.add_0_r in Hall).
    edestruct (IH (S i)) as (s' & Hrun & Htrace & Hlive).
    { intros j c' Hj. specialize (Hall (S j) c' Hj).
      by replace (S i + j)%nat with (i + S j)%nat by lia. }
    exists s'. rewrite Hrun. split; [by rewrite <- app_assoc|].
    cbn [st_trace st_live] in Htrace, Hlive. split; [|done].
    rewrite Htrace. by rewrite <- !app_assoc.
Qed.

(** C2: a fetch failure (navigation, or a wait that raises something else
    than a timeout) on page [k] of one site stops that site's run there:
    the run returns the records of the pages before [k], its last page
    events are those of page [k], and the driver is quit.  The loop over
    the crawlers goes on with the crawlers after it; when the other
    sessions are healthy, the crawlers before and after it in the list run
    all their pages, and the aggregated result is the de-duplicated
    concatenation of everything collected. *)
Theorem C2_fetch_failure_stops_one_site_only :
  ∀ (before after : list BaseCrawler.crawler) (c : BaseCrawler.crawler)
    (W : nat → site_world) (keyword : pystr) (pages k : Z) (e : exn)
    (s : state),
    1 ≤ k ≤ pages →
    build_raises (W (length before)) = None →
    Forall (λ p, recoverable c (W (length before)) keyword p = true)
           (range 1 k) →
    (∃ u, BaseCrawler.build_url (BaseCrawler.adapter c) keyword k = Ok u) →
    fetch_failure (W (length before)) k = Some e →
    is_Exception e = true →
    (∀ j c', before !! j = Some c' → healthy c' (W j) keyword pages) →
    (∀ j c', after !! j = Some c' →
             healthy c' (W (S (length before) + j)%nat) keyword pages) →
    BaseCrawler.crawl c (W (length before)) keyword pages s
    = (Ok (run_items c (W (length before)) (range 1 k)),
       mkState None (run_items c (W (length before)) (range 1 k)) (st_live s)
               (st_trace s
                ++ run_events c (W (length before)) keyword (range 1 k)
                     (fatal_events c (W (length before)) keyword k)))
    ∧ (∀ acc s0,
         MultiSiteCrawler.crawl_loop (c :: after) W (length before)
           keyword pages acc s0
         = MultiSiteCrawler.crawl_loop after W (S (length before))
             keyword pages
             (acc ++ run_items c (W (length before)) (range 1 k))
             (mkState None (run_items c (W (length before)) (range 1 k))
                (st_live s0)
                (st_trace s0
                 ++ run_events c (W (length before)) keyword (range 1 k)
                      (fatal_events c (W (length before)) keyword k))))
    ∧ ∃ s',
        MultiSiteCrawler.crawl (before ++ c :: after) W keyword pages s
        = (Ok (MultiSiteCrawler._deduplicate
                 (healthy_items before W 0 pages
                  ++ run_items c (W (length before)) (range 1 k)
                  ++ healthy_items after W (S (length before)) pages)),
           s')
        ∧ st_trace s'
          = st_trace s
            ++ healthy_events before W 0 keyword pages
            ++ run_events c (W (length before)) keyword (range 1 k)
                 (fatal_events c (W (length before)) keyword k)
            ++ healthy_events after W (S (length before)) keyword pages
        ∧ st_live s' = st_live s.
Proof.
  intros before after c W keyword pages k e s Hk Hb Hpre Hu He Hexc
         Hbefore Hafter.
  assert (Hsite : ∀ s0,
    BaseCrawler.crawl c (W (length before)) keyword pages s0
    = (Ok (run_items c (W (length before)) (range 1 k)),
       mkState None (run_items c (W (length before)) (range 1 k)) (st_live s0)
               (st_trace s0
                ++ run_events c (W (length before)) keyword (range 1 k)
                     (fatal_events c (W (length before)) keyword k)))).
  { intros s0.
    apply (crawl_fatal c (W (length before)) keyword (range 1 k) k
             (range (k + 1) (pages + 1)) pages e s0); try done.
    apply range_split. lia. }
  split; [apply Hsite|]. split.
  { intros acc s0. cbn [MultiSiteCrawler.crawl_loop].
    unfold mbind, M_bind. by rewrite Hsite. }
  destruct (crawl_loop_healthy before W 0 keyword pages [] s)
    as (s1 & Hrun1 & Htrace1 & Hlive1); [done|].
  destruct (crawl_loop_healthy after W (S (length before)) keyword pages
              (healthy_items before W 0 pages
               ++ run_items c (W (length before)) (range 1 k))
              (mkState None (run_items c (W (length before)) (range 1 k))
                 (st_live s1)
                 (st_trace s1
                  ++ run_events c (W (length before)) keyword (range 1 k)
                       (fatal_events c (W (length before)) keyword k))))
    as (s2 & Hrun2 & Htrace2 & Hlive2); [done|].
  cbn [st_trace st_live] in Htrace2, Hlive2.
  exists s2. unfold MultiSiteCrawler.crawl, mbind, M_bind.
  rewrite crawl_loop_app, Hrun1.
  cbn [MultiSiteCrawler.crawl_loop Nat.add app]. unfold mbind, M_bind.
  rewrite Hsite, Hrun2. split; [by rewrite <- app_assoc|].
  split.
  - rewrite Htrace2, Htrace1. by rewrite <- !app_assoc.
  - by rewrite Hlive2.
Qed.

(** The example of the specification: the Naver session dies on page 2 of
    3; Naver contributes page 1 only, and Daum, next in the list, runs
    its three pages. *)
Lemma C2_witness :
  ∃ s',
    MultiSiteCrawler.crawl ([] ++ Samples.naver :: [Samples.daum])
      (λ i, match i with
            | O => Samples.site_with_page_2 Samples.dead_page
            | S _ => Samples.site_fine
            end)
      (py "k") 3 initial_state
    = (Ok (MultiSiteCrawler._deduplicate
             ([] ++ run_items Samples.naver
                      (Samples.site_with_page_2 Samples.dead_page) (range 1 2)
              ++ healthy_items [Samples.daum]
                   (λ i, match i with
                         | O => Samples.site_with_page_2 Samples.dead_page
                         | S _ => Samples.site_fine
                         end) 1 3)),
       s').
Proof.
  destruct (C2_fetch_failure_stops_one_site_only
              [] [Samples.daum] Samples.naver
              (λ i, match i with
                    | O => Samples.site_with_page_2 Samples.dead_page
                    | S _ => Samples.site_fine
                    end)
              (py "k") 3 2 WebDriverException initial_state)
    as (_ & _ & s' & Hrun & _).
  - lia.
  - reflexivity.
  - repeat constructor.
  - eexists. reflexivity.
  - reflexivity.
  - reflexivity.
  - intros j c' Hj. destruct j; discriminate Hj.
  - intros j c' Hj. destruct j as [|j]; [|destruct j; discriminate Hj].
    injection Hj as <-. split; [reflexivity|]. repeat constructor.
  - exists s'. exact Hrun.
Defined.

(* ===================================================================== *)
(** * Further properties                                                 *)
(* ===================================================================== *)

(** ** More on de-duplication *)

(** A list whose keys are pairwise distinct and new passes unchanged. *)
Lemma first_seen_fixed (items earlier : list NewsItem) :
  NoDup (List.map MultiSiteCrawler.key items) →
  (∀ x, x ∈ items →
        MultiSiteCrawler.key x ∉ List.map MultiSiteCrawler.key earlier) →
  first_seen earlier items = items.
Proof.
  revert earlier. induction items as [|item rest IH]; intros earlier Hnd Hnew;
    simpl; [done|].
  simpl in Hnd. apply NoDup_cons in Hnd as [Hitem Hrest].
  rewrite decide_False by (apply Hnew; by left).
  f_equal. apply IH; [done|].
  intros x Hx. rewrite List.map_app, elem_of_app. simpl.
  rewrite list_elem_of_singleton. intros [Hin|Heq].
  - by apply (Hnew x); [right|].
  - apply Hitem. rewrite <- Heq. apply list_elem_of_In, in_map.
    by apply list_elem_of_In.
Qed.

(** X1: de-duplicating twice changes nothing more. *)
Theorem X1_deduplicate_idempotent :
  ∀ items : list NewsItem,
    MultiSiteCrawler._deduplicate (MultiSiteCrawler._deduplicate items)
    = MultiSiteCrawler._deduplicate items.
Proof.
  intros items. rewrite !deduplicate_first_seen.
  apply first_seen_fixed; [apply first_seen_NoDup|].
  intros x _ Hx. simpl in Hx. by apply elem_of_nil in Hx.
Qed.

Lemma first_seen_length (items earlier : list NewsItem) :
  length (first_seen earlier items)
  = size (list_to_set (List.map MultiSiteCrawler.key items)
          ∖ list_to_set (List.map MultiSiteCrawler.key earlier) : gset pystr).
Proof.
  revert earlier. induction items as [|item rest IH]; intros earlier.
  - replace (list_to_set (List.map MultiSiteCrawler.key [])
             ∖ list_to_set (List.map MultiSiteCrawler.key earlier) : gset pystr)
      with (∅ : gset pystr); [by rewrite size_empty|].
    apply set_eq. intros k.
    rewrite elem_of_difference, !elem_of_list_to_set. simpl.
    rewrite elem_of_nil, elem_of_empty. tauto.
  - cbn [first_seen List.map].
    destruct (decide _) as [Hin|Hnew]; cbn [length]; rewrite IH.
    + f_equal. apply set_eq. intros k.
      rewrite !elem_of_difference, !elem_of_list_to_set, List.map_app,
        elem_of_app, elem_of_cons. cbn [List.map].
      rewrite list_elem_of_singleton.
      split; [intros [? ?]; split; [tauto|]; tauto|].
      intros [[-> | ?] ?]; [done|]. split; [done|]. intros [? | ->]; done.
    + replace (list_to_set (MultiSiteCrawler.key item
                            :: List.map MultiSiteCrawler.key rest)
               ∖ list_to_set (List.map MultiSiteCrawler.key earlier)
               : gset pystr)
        with ({[MultiSiteCrawler.key item]}
              ∪ (list_to_set (List.map MultiSiteCrawler.key rest)
                 ∖ list_to_set (List.map MultiSiteCrawler.key (earlier ++ [item])))
              : gset pystr).
      * symmetry. etransitivity; [apply size_union|by rewrite size_singleton].
        intros k Hk1 [Hk2 Hne]%elem_of_difference.
        apply elem_of_singleton in Hk1 as ->. apply Hne.
        rewrite elem_of_list_to_set, List.map_app, elem_of_app. right.
        cbn [List.map]. by apply list_elem_of_singleton.
      * apply set_eq. intros k.
        rewrite !elem_of_union, !elem_of_difference, !elem_of_list_to_set,
          List.map_app, elem_of_app, elem_of_cons, elem_of_singleton.
        cbn [List.map]. rewrite list_elem_of_singleton.
        split.
        -- intros [-> | [Hk Hne]]; [split; [by left | done]|].
           split; [by right | tauto].
        -- intros [[-> | Hk] Hne]; [by left|].
           destruct (decide (k = MultiSiteCrawler.key item)) as [-> | ?];
             [by left|].
           right. split; [done|]. intros [?|?]; done.
Qed.

(** X2: the number of records kept is the number of distinct keys of the
    input. *)
Theorem X2_deduplicate_counts_distinct_keys :
  ∀ items : list NewsItem,
    length (MultiSiteCrawler._deduplicate items)
    = size (list_to_set (List.map MultiSiteCrawler.key items) : gset pystr).
Proof.
  intros items. rewrite deduplicate_first_seen, first_seen_length.
  f_equal. apply set_eq. intros k.
  rewrite elem_of_difference, !elem_of_list_to_set. simpl.
  rewrite elem_of_nil. tauto.
Qed.

Lemma first_seen_filter (items e1 e2 : list NewsItem) :
  first_seen (e1 ++ e2) items
  = filter (λ x, MultiSiteCrawler.key x ∉ List.map MultiSiteCrawler.key e1)
           (first_seen e2 items).
Proof.
  revert e2. induction items as [|item rest IH]; intros e2; simpl; [done|].
  rewrite <- app_assoc, IH.
  destruct (decide (MultiSiteCrawler.key item
                    ∈ List.map MultiSiteCrawler.key e2)) as [Hin2|Hnew2].
  - rewrite decide_True; [done|].
    rewrite List.map_app, elem_of_app. by right.
  - destruct (decide (MultiSiteCrawler.key item
                      ∈ List.map MultiSiteCrawler.key e1)) as [Hin1|Hnew1].
    + rewrite decide_True by (rewrite List.map_app, elem_of_app; by left).
      rewrite filter_cons_False; [done|]. by intros ?.
    + rewrite decide_False
        by (rewrite List.map_app, elem_of_app; intros [?|?]; done).
      by rewrite filter_cons_True.
Qed.

(** X3: de-duplicating two batches one after the other keeps the first
    batch's result as it is; of the second batch's result exactly the
    records whose key occurs in the first batch are removed.  So a record
    of an earlier site is never displaced by a later site. *)
Theorem X3_deduplicate_earlier_batch_wins :
  ∀ l1 l2 : list NewsItem,
    MultiSiteCrawler._deduplicate (l1 ++ l2)
    = MultiSiteCrawler._deduplicate l1
      ++ filter (λ x, MultiSiteCrawler.key x
                      ∉ List.map MultiSiteCrawler.key l1)
                (MultiSiteCrawler._deduplicate l2).
Proof.
  intros l1 l2. rewrite !deduplicate_first_seen, first_seen_app. f_equal.
  simpl. rewrite <- (app_nil_r l1) at 1. apply first_seen_filter.
Qed.

(** X4: whatever the pages do, no two records of the aggregated result
    have the same key. *)
Theorem X4_pipeline_result_has_distinct_keys :
  ∀ keyword pages_per_site sites W s,
    match (run_pipeline_crawl keyword pages_per_site sites W s).1 with
    | Ok items => NoDup (List.map MultiSiteCrawler.key items)
    | Exc _ => True
    end.
Proof.
  intros keyword pages sites W s.
  unfold run_pipeline_crawl, mbind, M_bind, lift.
  destruct (MultiSiteCrawler.__init__ sites true 8) as [cs|e]; [|done].
  unfold MultiSiteCrawler.crawl, mbind, M_bind.
  destruct (MultiSiteCrawler.crawl_loop cs W 0 keyword pages [] s)
    as [[all_items|e] s']; simpl; [|done].
  rewrite deduplicate_first_seen. apply first_seen_NoDup.
Qed.

(** ** What every record looks like *)

Lemma lstrip_head (s : pystr) c r : lstrip s = c :: r → isspace c = false.
Proof.
  induction s as [|a s IH]; simpl; [done|].
  destruct (isspace a) eqn:Ha; [done|]. by intros [= <- _].
Qed.

Lemma lstrip_fixed (s : pystr) :
  (∀ c r, s = c :: r → isspace c = false) → lstrip s = s.
Proof.
  destruct s as [|a s]; simpl; [done|]. intros H. by rewrite (H a s).
Qed.

Lemma lstrip_idem (s : pystr) : lstrip (lstrip s) = lstrip s.
Proof. apply lstrip_fixed. intros c r. apply lstrip_head. Qed.

Lemma lstrip_suffix (s : pystr) : ∃ w, s = w ++ lstrip s.
Proof.
  induction s as [|a s [w IH]]; simpl; [by exists []|].
  destruct (isspace a); [|by exists []].
  exists (a :: w). simpl. by f_equal.
Qed.

Lemma rstrip_prefix (s : pystr) : ∃ w, s = rstrip s ++ w.
Proof.
  destruct (lstrip_suffix (rev s)) as [w Hw]. exists (rev w).
  unfold rstrip. rewrite <- List.rev_app_distr, <- Hw.
  by rewrite List.rev_involutive.
Qed.

Lemma strip_idem (s : pystr) : strip (strip s) = strip s.
Proof.
  unfold strip.
  assert (Hl : lstrip (rstrip (lstrip s)) = rstrip (lstrip s)).
  { apply lstrip_fixed. intros c r Hc.
    destruct (rstrip_prefix (lstrip s)) as [w Hw]. rewrite Hc in Hw.
    by apply (lstrip_head s c (r ++ w)). }
  rewrite Hl. unfold rstrip. by rewrite List.rev_involutive, lstrip_idem.
Qed.

Lemma safe_text_stripped card selector :
  strip (BaseCrawler.safe_text card selector [])
  = BaseCrawler.safe_text card selector [].
Proof.
  unfold BaseCrawler.safe_text. destruct (find_element _ _); [|done].
  apply strip_idem.
Qed.

Lemma por_stripped (a b : pystr) :
  strip a = a → strip b = b → strip (por a b) = por a b.
Proof. unfold por. by destruct (truthy a). Qed.

Lemma por_nonempty_r (a b : pystr) : b ≠ [] → por a b ≠ [].
Proof. unfold por. by destruct a. Qed.

(** A property of every record a loop body constructs is a property of
    every record of every page of every registered crawler. *)
Lemma registry_parse_page_forall (P : NewsItem → Prop) :
  (∀ now card item, NaverCrawler.card_item now card = Some item → P item) →
  (∀ now card item, DaumCrawler.card_item now card = Some item → P item) →
  (∀ now card item, HankyungCrawler.card_item now card = Some item → P item) →
  ∀ cls, cls ∈ List.map snd MultiSiteCrawler._REGISTRY →
    ∀ clock doc, Forall P (BaseCrawler.parse_page cls clock doc).
Proof.
  intros Hn Hd Hh cls [-> | [-> | ->]]%registry_classes clock doc;
    apply Forall_forall; intros item; simpl;
    [ unfold NaverCrawler.parse_page | unfold DaumCrawler.parse_page
    | unfold HankyungCrawler.parse_page ];
    intros [Hin|(card & now & _ & Hitem)]%parse_loop_elem;
    try (by apply elem_of_nil in Hin); eauto.
Qed.

Section ItemInvariant.
Context (P : NewsItem → Prop).

Lemma items_page_body self W keyword page :
  (∀ clock doc,
     Forall P (BaseCrawler.parse_page (BaseCrawler.adapter self) clock doc)) →
  keeps (λ s, Forall P (st_results s))
        (BaseCrawler.page_body self W keyword page) (λ _, True).
Proof.
  intros Hparse. unfold BaseCrawler.page_body.
  eapply keeps_bind; [by apply keeps_lift with (V := λ _, True)|].
  intros url _. eapply keeps_bind with (V := λ _, True).
  { unfold driver_get. eapply keeps_bind with (V := λ _, True);
      [intros s Hs; by split|].
    intros _ _. destruct (get_raises _);
      [apply keeps_raise | by apply keeps_ret]. }
  intros _ _. eapply keeps_bind with (V := λ _, True).
  { apply keeps_try_except; [|intros; by apply keeps_ret].
    eapply keeps_bind with (V := λ _, True); [|intros; by apply keeps_ret].
    unfold wait_until. eapply keeps_bind with (V := λ _, True);
      [intros s Hs; by split|].
    intros _ _. destruct (wait_raises _);
      [apply keeps_raise | by apply keeps_ret]. }
  intros [|] _; [|by apply keeps_ret].
  eapply keeps_bind with (V := Forall P).
  { apply keeps_try_except; [|intros; by apply keeps_ret].
    unfold BaseCrawler.call_parse_page.
    eapply keeps_bind with (V := λ _, True); [intros s Hs; by split|].
    intros _ _. destruct (parse_raises _);
      [apply keeps_raise | apply keeps_ret, Hparse]. }
  intros items Hitems. eapply keeps_bind with (V := λ _, True).
  { intros s Hs. split; [|done]. simpl. by apply Forall_app. }
  intros _ _ s Hs. by split.
Qed.

Lemma items_crawl self W keyword pages :
  (∀ clock doc,
     Forall P (BaseCrawler.parse_page (BaseCrawler.adapter self) clock doc)) →
  keeps (λ _, True) (BaseCrawler.crawl self W keyword pages) (Forall P).
Proof.
  intros Hparse s _. split; [done|].
  unfold BaseCrawler.crawl.
  assert (Hrun : keeps (λ s, Forall P (st_results s))
            (d ← build_driver W (BaseCrawler.headless self) ;
             set_driver (Some d) ;;
             try_finally
               (try_except
                  (for_each (range 1 (pages + 1))
                            (BaseCrawler.page_body self W keyword))
                  is_Exception (λ _, mret ()))
               BaseCrawler.release ;;
             get_results)
            (Forall P)).
  { eapply keeps_bind with (V := λ _, True).
    { apply keeps_build_driver. by intros s' Hs'. }
    intros d _. eapply keeps_bind with (V := λ _, True).
    { intros s' Hs'. by split. }
    intros _ _. eapply keeps_bind with (V := λ _, True).
    { apply keeps_try_finally.
      - apply keeps_try_except; [|intros; by apply keeps_ret].
        apply keeps_for_each. intros page. by apply items_page_body.
      - unfold BaseCrawler.release.
        eapply keeps_bind with (V := λ _, True);
          [intros s' Hs'; by split|].
        intros [d'|] _; [|by apply keeps_ret].
        eapply keeps_bind with (V := λ _, True);
          intros; intros s' Hs'; by split. }
    intros _ _ s' Hs'. by split. }
  unfold mbind at 1, M_bind at 1. simpl.
  apply Hrun. constructor.
Qed.

Lemma items_crawl_loop (cs : list BaseCrawler.crawler) W i keyword pages acc :
  Forall (λ c, ∀ clock doc,
            Forall P (BaseCrawler.parse_page (BaseCrawler.adapter c) clock doc))
         cs →
  Forall P acc →
  keeps (λ _, True)
        (MultiSiteCrawler.crawl_loop cs W i keyword pages acc) (Forall P).
Proof.
  intros Hcs. revert i acc.
  induction Hcs as [|c rest Hc _ IH]; intros i acc Hacc; simpl.
  - by apply keeps_ret.
  - eapply keeps_bind; [by apply items_crawl|].
    intros items Hitems. apply IH. by apply Forall_app.
Qed.

(** What holds of every record the registered crawlers extract holds of
    every record the pipeline's crawl step returns. *)
Lemma items_pipeline :
  (∀ cls, cls ∈ List.map snd MultiSiteCrawler._REGISTRY →
     ∀ clock doc, Forall P (BaseCrawler.parse_page cls clock doc)) →
  ∀ keyword pages_per_site sites W s,
    match (run_pipeline_crawl keyword pages_per_site sites W s).1 with
    | Ok items => Forall P items
    | Exc _ => True
    end.
Proof.
  intros Hreg keyword pages sites W s.
  unfold run_pipeline_crawl, mbind, M_bind, lift.
  destruct (MultiSiteCrawler.__init__ sites true 8) as [cs|e] eqn:Hinit;
    [|done].
  unfold MultiSiteCrawler.crawl, mbind, M_bind.
  assert (Hcs : Forall (λ c, ∀ clock doc,
            Forall P (BaseCrawler.parse_page (BaseCrawler.adapter c) clock doc))
          cs).
  { eapply Forall_impl; [by eapply init_registry|]. intros c Hc. by apply Hreg. }
  pose proof (items_crawl_loop cs W 0%nat keyword pages [] Hcs
                (Forall_nil_2 _) s I) as [_ Hloop].
  destruct (MultiSiteCrawler.crawl_loop cs W 0 keyword pages [] s)
    as [[all_items|e] s']; simpl in *; [|done].
  by apply deduplicate_Forall.
Qed.

End ItemInvariant.

(** X5: the title of every record the crawl step returns is free of
    leading and trailing whitespace, whatever the pages show. *)
Theorem X5_titles_are_stripped :
  ∀ keyword pages_per_site sites W s,
    match (run_pipeline_crawl keyword pages_per_site sites W s).1 with
    | Ok items => Forall (λ item, strip (title item) = title item) items
    | Exc _ => True
    end.
Proof.
  apply items_pipeline. apply registry_parse_page_forall;
    intros now card item;
    unfold NaverCrawler.card_item, DaumCrawler.card_item,
      HankyungCrawler.card_item;
    (destruct (negb _); [done|]); intros [= <-]; simpl;
    repeat apply por_stripped; apply safe_text_stripped.
Qed.

(** X6: no record the crawl step returns has an empty press. *)
Theorem X6_press_is_never_empty :
  ∀ keyword pages_per_site sites W s,
    match (run_pipeline_crawl keyword pages_per_site sites W s).1 with
    | Ok items => Forall (λ item, press item ≠ []) items
    | Exc _ => True
    end.
Proof.
  apply items_pipeline. apply registry_parse_page_forall;
    intros now card item;
    unfold NaverCrawler.card_item, DaumCrawler.card_item,
      HankyungCrawler.card_item;
    (destruct (negb _); [done|]); intros [= <-]; simpl;
    repeat apply por_nonempty_r; done.
Qed.

(** X7: the source of every record the crawl step returns is a registered
    site key. *)
Theorem X7_source_is_a_registered_site :
  ∀ keyword pages_per_site sites W s,
    match (run_pipeline_crawl keyword pages_per_site sites W s).1 with
    | Ok items =>
        Forall (λ item, source item ∈ MultiSiteCrawler.list_sites) items
    | Exc _ => True
    end.
Proof.
  apply items_pipeline. apply registry_parse_page_forall;
    intros now card item;
    unfold NaverCrawler.card_item, DaumCrawler.card_item,
      HankyungCrawler.card_item;
    (destruct (negb _); [done|]); intros [= <-]; simpl;
    rewrite list_sites_eq, !elem_of_cons; auto.
Qed.

(** X8: no Hankyung record the crawl step returns has a url that starts
    with "/": a site-relative link is always made absolute. *)
Theorem X8_hankyung_urls_are_not_relative :
  ∀ keyword pages_per_site sites W s,
    match (run_pipeline_crawl keyword pages_per_site sites W s).1 with
    | Ok items =>
        Forall (λ item, source item = HankyungCrawler.SITE_KEY →
                        startswith (url item) (py "/") = false) items
    | Exc _ => True
    end.
Proof.
  apply items_pipeline. apply registry_parse_page_forall;
    intros now card item;
    unfold NaverCrawler.card_item, DaumCrawler.card_item,
      HankyungCrawler.card_item;
    (destruct (negb _); [done|]); intros [= <-]; simpl; try done.
  intros _.
  match goal with |- context [truthy ?u && startswith ?u ?p] =>
    destruct u as [|c u'] eqn:Hu; [done|];
    cbn [truthy andb]; destruct (startswith (c :: u') p) eqn:Hs; [done|]
  end.
  exact Hs.
Qed.

(** ** Records follow the cards *)

Lemma parse_loop_titles (f : pystr → WebElement → option NewsItem)
      (tf : WebElement → pystr) clock cards items :
  (∀ now card, title <$> f now card
               = if truthy (tf card) then Some (tf card) else None) →
  List.map title (parse_loop f clock cards items)
  = List.map title items ++ List.filter truthy (List.map tf cards).
Proof.
  intros Hf. revert items.
  induction cards as [|card rest IH]; intros items; simpl.
  - by rewrite app_nil_r.
  - specialize (Hf (clock (length items)) card).
    destruct (f (clock (length items)) card) as [item|]; simpl in Hf;
      destruct (truthy (tf card)); try done.
    injection Hf as Hf. rewrite IH, List.map_app, <- app_assoc. simpl.
    by rewrite Hf.
Qed.

(** X9: a parsed page gives one record per card with a non-empty title, in
    the order of the cards: the titles of the records are the non-empty
    titles read from the cards, in document order. *)
Theorem X9_records_follow_the_cards :
  ∀ (clock : nat → pystr) (doc : WebElement),
    List.map title (NaverCrawler.parse_page clock doc)
    = List.filter truthy
        (List.map (λ card, BaseCrawler.safe_text card "a.news_tit" [])
                  (find_elements doc "ul.list_news > li.bx"))
    ∧ List.map title (DaumCrawler.parse_page clock doc)
      = List.filter truthy
          (List.map
             (λ card,
                por (BaseCrawler.safe_text card "a.tit_main" [])
               (por (BaseCrawler.safe_text card "a.link_txt" [])
               (por (BaseCrawler.safe_text card "a.item-title" [])
                    (BaseCrawler.safe_text card "a.tit_g" []))))
             (first_cards doc ["li.g_item"; "div.cont_inner";
                               "li[data-docid]"]%string))
    ∧ List.map title (HankyungCrawler.parse_page clock doc)
      = List.filter truthy
          (List.map
             (λ card,
                por (BaseCrawler.safe_text card ".news-tit" [])
               (por (BaseCrawler.safe_text card "h3.title a" [])
               (por (BaseCrawler.safe_text card "a.tit" [])
                    (BaseCrawler.safe_text card ".tit" []))))
             (first_cards doc ["li.item"; "li.news-item";
                               "article.list-item"]%string)).
Proof.
  intros clock doc.
  unfold NaverCrawler.parse_page, DaumCrawler.parse_page,
    HankyungCrawler.parse_page.
  repeat split;
    match goal with
    | |- _ = List.filter truthy (List.map ?tf ?cards) =>
        apply (parse_loop_titles _ tf clock cards [])
    end;
    intros now card;
    unfold NaverCrawler.card_item, DaumCrawler.card_item,
      HankyungCrawler.card_item;
    match goal with |- context [negb (truthy ?t)] => by destruct (truthy t) end.
Qed.

(** ** Edges of a run *)

Lemma range_empty (a b : Z) : b ≤ a → range a b = [].
Proof. intros Hb. unfold range. by replace (Z.to_nat (b - a)) with 0%nat by lia. Qed.

(** X10: asked for no page at all (or a negative number of pages), the run
    still starts a browser and quits it; it fetches nothing and returns no
    record. *)
Theorem X10_no_pages_still_opens_a_browser :
  ∀ (self : BaseCrawler.crawler) (W : site_world) (keyword : pystr)
    (pages : Z) (s : state),
    build_raises W = None →
    pages ≤ 0 →
    BaseCrawler.crawl self W keyword pages s
    = (Ok [], mkState None [] (st_live s)
                      (st_trace s
                       ++ [EvBuild (BaseCrawler.headless self); EvQuit])).
Proof.
  intros self W keyword pages s Hb Hpages.
  rewrite crawl_healthy.
  - by rewrite range_empty by lia.
  - split; [done|]. rewrite range_empty by lia. constructor.
Qed.

Lemma X10_witness :
  BaseCrawler.crawl Samples.naver Samples.site_fine (py "k") 0 initial_state
  = (Ok [], mkState None [] 0 [EvBuild true; EvQuit]).
Proof.
  apply (X10_no_pages_still_opens_a_browser
           Samples.naver Samples.site_fine (py "k") 0 initial_state);
    [reflexivity | lia].
Defined.

(** X11: when [build_driver] fails for one site, the exception leaves
    [MultiSiteCrawler.crawl] as it is, whatever its class: the records of
    the sites already crawled are not returned, and the sites after it are
    never started.  If the failure is in [webdriver.Chrome], nothing has
    been started for the failing site; if it is in the script run on the
    fresh browser, that browser has been started and is left
    running. *)
Theorem X11_driver_failure_fails_the_whole_crawl :
  ∀ (before after : list BaseCrawler.crawler) (c : BaseCrawler.crawler)
    (W : nat → site_world) (keyword : pystr) (pages : Z)
    (f : build_failure) (s : state),
    (∀ j c', before !! j = Some c' → healthy c' (W j) keyword pages) →
    build_raises (W (length before)) = Some f →
    ∃ s',
      MultiSiteCrawler.crawl (before ++ c :: after) W keyword pages s
      = (Exc (match f with ChromeRaises e | ScriptRaises e => e end), s')
      ∧ st_trace s'
        = st_trace s ++ healthy_events before W 0 keyword pages
            ++ match f with
               | ChromeRaises _ => []
               | ScriptRaises _ => [EvBuild (BaseCrawler.headless c)]
               end
      ∧ st_live s'
        = match f with
          | ChromeRaises _ => st_live s
          | ScriptRaises _ => S (st_live s)
          end.
Proof.
  intros before after c W keyword pages f s Hbefore Hb.
  destruct (crawl_loop_healthy before W 0 keyword pages [] s)
    as (s1 & Hrun1 & Htrace1 & Hlive1); [done|].
  unfold MultiSiteCrawler.crawl, mbind, M_bind.
  rewrite crawl_loop_app, Hrun1.
  cbn [MultiSiteCrawler.crawl_loop Nat.add app]. unfold mbind, M_bind.
  destruct f as [e|e].
  - rewrite (crawl_no_driver c _ keyword pages e s1 Hb).
    eexists. split; [done|]. simpl. rewrite app_nil_r. by split.
  - rewrite (crawl_script_fails c _ keyword pages e s1 Hb).
    eexists. split; [done|]. simpl.
    rewrite Htrace1, Hlive1, <- app_assoc. by split.
Qed.

(** Naver is crawled, then the script on Daum's fresh browser fails: the
    crawl raises after Naver's three pages, and Daum's browser is left
    running. *)
Lemma X11_witness :
  ∃ s',
    MultiSiteCrawler.crawl ([Samples.naver] ++ Samples.daum :: [])
      (λ i, match i with
            | O => Samples.site_fine
            | S _ => Samples.site_script_fails
            end) (py "k") 3 initial_state
    = (Exc WebDriverException, s')
    ∧ st_live s' = 1%nat.
Proof.
  destruct (X11_driver_failure_fails_the_whole_crawl
              [Samples.naver] [] Samples.daum
              (λ i, match i with
                    | O => Samples.site_fine
                    | S _ => Samples.site_script_fails
                    end) (py "k") 3 (ScriptRaises WebDriverException)
              initial_state)
    as (s' & Hrun & _ & Hlive).
  - intros j c' Hj. destruct j as [|j]; [|destruct j; discriminate Hj].
    injection Hj as <-. split; [reflexivity|]. repeat constructor.
  - reflexivity.
  - exists s'. split; [exact Hrun | exact Hlive].
Defined.

Section StopFacts.
Context (self : BaseCrawler.crawler) (W : site_world) (keyword : pystr).

(** The loop stops at the first page whose iteration raises. *)
Lemma for_each_raise ps1 p ps2 e evs s :
  Forall (λ p, recoverable self W keyword p = true) ps1 →
  (∀ s0, BaseCrawler.page_body self W keyword p s0
         = (Exc e, advance s0 [] evs)) →
  for_each (ps1 ++ p :: ps2) (BaseCrawler.page_body self W keyword) s
  = (Exc e, advance s (run_items self W ps1)
                      (flat_map (page_events self W keyword) ps1 ++ evs)).
Proof.
  intros Hps Hp. revert s.
  induction Hps as [|q ps1 Hq _ IH]; intros s; cbn [app for_each].
  - unfold mbind, M_bind. by rewrite Hp.
  - unfold mbind, M_bind. rewrite page_body_recoverable by done.
    rewrite IH, advance_advance. unfold run_items. cbn [flat_map].
    by rewrite <- app_assoc.
Qed.

Lemma crawl_raise ps1 p ps2 pages e evs s :
  build_raises W = None →
  range 1 (pages + 1) = ps1 ++ p :: ps2 →
  Forall (λ p, recoverable self W keyword p = true) ps1 →
  (∀ s0, BaseCrawler.page_body self W keyword p s0
         = (Exc e, advance s0 [] evs)) →
  BaseCrawler.crawl self W keyword pages s
  = (if is_Exception e then Ok (run_items self W ps1) else Exc e,
     mkState None (run_items self W ps1) (st_live s)
             (st_trace s ++ run_events self W keyword ps1 evs)).
Proof.
  intros Hb Hrange Hps Hp. rewrite crawl_unfold by done.
  rewrite Hrange, (for_each_raise ps1 p ps2 e evs) by done.
  unfold advance, run_events. cbn [st_results st_live st_trace app Nat.pred].
  rewrite <- !app_assoc. by destruct (is_Exception e).
Qed.

Lemma page_body_interrupted page e s :
  (∃ u, BaseCrawler.build_url (BaseCrawler.adapter self) keyword page = Ok u) →
  get_raises (pages_of W page) = None →
  wait_raises (pages_of W page) = None →
  parse_raises (pages_of W page) = Some e →
  is_Exception e = false →
  BaseCrawler.page_body self W keyword page s
  = (Exc e, advance s [] [ev_get self keyword page; ev_wait self; EvParse]).
Proof.
  intros [u Hu] Hget Hwait Hparse He.
  unfold BaseCrawler.page_body, ev_get, ev_wait, url_of, advance,
    driver_get, wait_until, BaseCrawler.call_parse_page, emit, try_except,
    raise, lift, mbind, M_bind, mret, M_ret.
  rewrite Hu, Hget. cbn. rewrite Hwait. cbn. rewrite Hparse. cbn.
  rewrite He. by rewrite app_nil_r, <- !app_assoc.
Qed.

Lemma page_body_no_url page e s :
  BaseCrawler.build_url (BaseCrawler.adapter self) keyword page = Exc e →
  BaseCrawler.page_body self W keyword page s = (Exc e, advance s [] []).
Proof.
  intros Hu. unfold BaseCrawler.page_body, lift, mbind, M_bind.
  rewrite Hu. by rewrite advance_nil.
Qed.

End StopFacts.

(** X12: an exception that is not an [Exception] (an interrupt from the
    keyboard) raised while page [k] is parsed is not swallowed: it leaves
    [crawl], after the driver has been quit; no later page is touched and
    the records collected so far are not returned. *)
Theorem X12_interrupt_leaves_crawl_after_quit :
  ∀ (self : BaseCrawler.crawler) (W : site_world) (keyword : pystr)
    (pages k : Z) (e : exn) (s : state),
    1 ≤ k ≤ pages →
    build_raises W = None →
    Forall (λ p, recoverable self W keyword p = true) (range 1 k) →
    (∃ u, BaseCrawler.build_url (BaseCrawler.adapter self) keyword k = Ok u) →
    get_raises (pages_of W k) = None →
    wait_raises (pages_of W k) = None →
    parse_raises (pages_of W k) = Some e →
    is_Exception e = false →
    BaseCrawler.crawl self W keyword pages s
    = (Exc e,
       mkState None (run_items self W (range 1 k)) (st_live s)
               (st_trace s
                ++ run_events self W keyword (range 1 k)
                     [ev_get self keyword k; ev_wait self; EvParse])).
Proof.
  intros self W keyword pages k e s Hk Hb Hpre Hu Hget Hwait Hparse He.
  rewrite (crawl_raise self W keyword (range 1 k) k
             (range (k + 1) (pages + 1)) pages e
             [ev_get self keyword k; ev_wait self; EvParse] s); try done.
  - by rewrite He.
  - apply range_split. lia.
  - intros s0. by apply page_body_interrupted.
Qed.

Lemma X12_witness :
  (BaseCrawler.crawl Samples.naver
     (Samples.site_with_page_2 Samples.interrupted_page) (py "k") 3
     initial_state).1 = Exc KeyboardInterrupt.
Proof.
  rewrite (X12_interrupt_leaves_crawl_after_quit Samples.naver
             (Samples.site_with_page_2 Samples.interrupted_page) (py "k")
             3 2 KeyboardInterrupt initial_state); try reflexivity.
  - lia.
  - repeat constructor.
  - eexists. reflexivity.
Defined.

(** ** Keywords and URLs *)

Lemma utf8_encode_cp_scalar (c : N) :
  scalar_value c = true →
  ∃ bs, utf8_encode_cp c = Some bs ∧ Forall (λ b, (b < 256)%N) bs.
Proof.
  unfold scalar_value, utf8_encode_cp. intros Hc.
  assert (Hrange : (c < 55296 ∨ (57344 ≤ c ∧ c < 1114112))%N).
  { apply orb_prop in Hc as [Hc|Hc]; [left; by apply N.ltb_lt|].
    apply andb_prop in Hc as [H1 H2]. right.
    split; [by apply N.leb_le | by apply N.ltb_lt]. }
  clear Hc.
  pose proof (N.mod_upper_bound c 64 ltac:(lia)) as Hm0.
  pose proof (N.mod_upper_bound (c / 64) 64 ltac:(lia)) as Hm1.
  pose proof (N.mod_upper_bound (c / 4096) 64 ltac:(lia)) as Hm2.
  destruct (N.ltb_spec c 128); [eexists; split; [done|]; repeat constructor; lia|].
  destruct (N.ltb_spec c 2048).
  { eexists; split; [done|].
    assert (c / 64 < 32)%N by (apply N.Div0.div_lt_upper_bound; lia).
    repeat constructor; lia. }
  destruct (N.ltb_spec c 65536).
  { destruct (N.leb_spec 55296 c), (N.leb_spec c 57343); simpl;
      try (eexists; split; [done|];
           assert (c / 4096 < 16)%N by (apply N.Div0.div_lt_upper_bound; lia);
           repeat constructor; lia).
    lia. }
  destruct (N.ltb_spec c 1114112); [|lia].
  eexists; split; [done|].
  assert (c / 262144 < 16)%N by (apply N.Div0.div_lt_upper_bound; lia).
  repeat constructor; lia.
Qed.

Lemma utf8_encode_cp_not_scalar (c : N) :
  scalar_value c = false → utf8_encode_cp c = None.
Proof.
  unfold scalar_value, utf8_encode_cp. intros Hc.
  assert (Hrange : (55296 ≤ c ∧ (c < 57344 ∨ 1114112 ≤ c))%N).
  { apply orb_false_elim in Hc as [Hlow Hhigh]. apply N.ltb_ge in Hlow.
    split; [done|]. apply andb_false_elim in Hhigh as [Hh|Hh];
      [left; by apply N.leb_gt | right; by apply N.ltb_ge]. }
  clear Hc.
  destruct (N.ltb_spec c 128); [lia|].
  destruct (N.ltb_spec c 2048); [lia|].
  destruct (N.ltb_spec c 65536).
  { destruct (N.leb_spec 55296 c); [|lia].
    destruct (N.leb_spec c 57343); [done|lia]. }
  destruct (N.ltb_spec c 1114112); [lia|done].
Qed.

Lemma utf8_encode_scalar (s : pystr) :
  forallb scalar_value s = true →
  ∃ bs, utf8_encode s = Some bs ∧ Forall (λ b, (b < 256)%N) bs.
Proof.
  induction s as [|c s IH]; simpl; [by exists []|].
  intros [Hc Hs]%andb_prop.
  destruct (utf8_encode_cp_scalar c Hc) as (b & -> & Hb).
  destruct (IH Hs) as (bs & -> & Hbs).
  eexists. split; [done|]. by apply Forall_app.
Qed.

Lemma utf8_encode_not_scalar (s : pystr) :
  forallb scalar_value s = false → utf8_encode s = None.
Proof.
  induction s as [|c s IH]; simpl; [done|].
  intros [Hc|Hs]%andb_false_elim.
  - by rewrite (utf8_encode_cp_not_scalar c Hc).
  - rewrite (IH Hs). by destruct (utf8_encode_cp c).
Qed.

Lemma hex_digit_safe (d : N) : (d < 16)%N → always_safe (hex_digit d) = true.
Proof.
  intros Hd.
  assert (Hcases : d ∈ [0; 1; 2; 3; 4; 5; 6; 7; 8; 9; 10; 11; 12; 13; 14; 15]%N).
  { rewrite !elem_of_cons. lia. }
  repeat (apply elem_of_cons in Hcases as [-> | Hcases]; [reflexivity|]).
  by apply elem_of_nil in Hcases.
Qed.

Lemma quote_byte_safe (b : N) :
  (b < 256)%N → forallb url_safe (quote_byte b) = true.
Proof.
  intros Hb. unfold quote_byte.
  destruct (N.eqb_spec b 32); [reflexivity|].
  destruct (always_safe b) eqn:Hsafe.
  - simpl. unfold url_safe. by rewrite Hsafe.
  - assert (b / 16 < 16)%N by (apply N.Div0.div_lt_upper_bound; lia).
    pose proof (N.mod_upper_bound b 16 ltac:(lia)).
    cbn [forallb]. unfold url_safe at 2 3.
    rewrite !hex_digit_safe by done. reflexivity.
Qed.

Lemma quote_plus_scalar (s : pystr) :
  forallb scalar_value s = true →
  ∃ q, quote_plus s = Ok q ∧ forallb url_safe q = true.
Proof.
  intros Hs. unfold quote_plus.
  destruct (utf8_encode_scalar s Hs) as (bs & -> & Hbs).
  eexists. split; [done|].
  induction Hbs as [|b bs Hb _ IH]; simpl; [done|].
  rewrite forallb_app, IH, quote_byte_safe; done.
Qed.

(** X14: [build_url] fails exactly on keywords that hold a code point
    which is not a Unicode scalar value (a lone surrogate), with
    [UnicodeEncodeError], on every page and for every site.  For every
    other keyword it returns the site's URL for every page, and the
    keyword enters it only as letters, digits, [_.-~], [+] and [%]: it
    can add neither a parameter nor a fragment. *)
Theorem X14_build_url_quotes_the_keyword :
  ∀ keyword : pystr,
    if forallb scalar_value keyword
    then ∃ q,
        forallb url_safe q = true
        ∧ ∀ page,
            NaverCrawler.build_url keyword page
            = Ok (py "https://search.naver.com/search.naver?where=news&query="
                    ++ q ++ py "&start=" ++ str_of_int ((page - 1) * 10 + 1)
                    ++ py "&sort=1")
            ∧ DaumCrawler.build_url keyword page
              = Ok (py "https://search.daum.net/search?w=news&q="
                      ++ q ++ py "&p=" ++ str_of_int page
                      ++ py "&spacing=0&sort=recency")
            ∧ HankyungCrawler.build_url keyword page
              = Ok (py "https://www.hankyung.com/search?search_str="
                      ++ q ++ py "&page=" ++ str_of_int page
                      ++ py "&type=news&sort=date")
    else ∀ page,
        NaverCrawler.build_url keyword page = Exc UnicodeEncodeError
        ∧ DaumCrawler.build_url keyword page = Exc UnicodeEncodeError
        ∧ HankyungCrawler.build_url keyword page = Exc UnicodeEncodeError.
Proof.
  intros keyword.
  unfold NaverCrawler.build_url, DaumCrawler.build_url,
    HankyungCrawler.build_url, format_url.
  destruct (forallb scalar_value keyword) eqn:Hk.
  - destruct (quote_plus_scalar keyword Hk) as (q & -> & Hq).
    exists q. split; [done|]. intros page.
    repeat split; cbv -[app str_of_int Z.add Z.sub Z.mul]; reflexivity.
  - intros page. unfold quote_plus.
    by rewrite (utf8_encode_not_scalar keyword Hk).
Qed.

(** The three sites quote the keyword in the same way, so a keyword that
    cannot be encoded fails the URL of each of them, on every page. *)
Lemma build_url_not_scalar (cls : BaseCrawler.SiteAdapter)
      (keyword : pystr) (page : Z) :
  cls ∈ List.map snd MultiSiteCrawler._REGISTRY →
  forallb scalar_value keyword = false →
  BaseCrawler.build_url cls keyword page = Exc UnicodeEncodeError.
Proof.
  intros Hcls Hk. simpl in Hcls.
  repeat (apply elem_of_cons in Hcls as [-> | Hcls]);
    [| | |by apply elem_of_nil in Hcls];
    cbn [BaseCrawler.build_url NaverCrawler.class DaumCrawler.class
         HankyungCrawler.class];
    unfold NaverCrawler.build_url, DaumCrawler.build_url,
      HankyungCrawler.build_url, format_url, quote_plus;
    by rewrite (utf8_encode_not_scalar keyword Hk).
Qed.

(** X13: a keyword that holds a code point which cannot be encoded (a
    lone surrogate) fails the URL of the first page of each of the three
    sites with [UnicodeEncodeError]; the outer handler of [crawl] catches
    it, so the run ends there: it returns no record, has navigated
    nowhere, and has quit the browser it started.  (The handler also
    prints its abort message; output is not part of the model.) *)
Theorem X13_unencodable_keyword_fetches_nothing :
  ∀ (self : BaseCrawler.crawler) (W : site_world) (keyword : pystr)
    (pages : Z) (s : state),
    BaseCrawler.adapter self ∈ List.map snd MultiSiteCrawler._REGISTRY →
    build_raises W = None →
    forallb scalar_value keyword = false →
    BaseCrawler.crawl self W keyword pages s
    = (Ok [], mkState None [] (st_live s)
                      (st_trace s
                       ++ [EvBuild (BaseCrawler.headless self); EvQuit])).
Proof.
  intros self W keyword pages s Hcls Hb Hk.
  destruct (Z_le_gt_dec pages 0) as [Hpages|Hpages].
  - rewrite crawl_healthy.
    + by rewrite range_empty by lia.
    + split; [done|]. rewrite range_empty by lia. constructor.
  - rewrite (crawl_raise self W keyword [] 1 (range 2 (pages + 1)) pages
               UnicodeEncodeError [] s); try done.
    + rewrite (range_split 1 1 (pages + 1)) by lia.
      by rewrite (range_empty 1 1) by lia.
    + intros s0.
      rewrite (page_body_no_url self W keyword 1 UnicodeEncodeError s0);
        [by rewrite advance_nil|].
      by apply build_url_not_scalar.
Qed.

(** A keyword that holds a lone surrogate, for the Naver crawler: the
    browser is started and quit, nothing is fetched, nothing is
    returned. *)
Lemma X13_witness :
  BaseCrawler.crawl Samples.naver Samples.site_fine [55296%N] 3 initial_state
  = (Ok [], mkState None [] 0 [EvBuild true; EvQuit]).
Proof.
  apply (X13_unencodable_keyword_fetches_nothing
           Samples.naver Samples.site_fine [55296%N] 3 initial_state);
    [|reflexivity|reflexivity].
  simpl. apply elem_of_cons. by left.
Defined.

(** ** The browser protocol *)

Lemma protocol_loop_events (evs : list event) :
  Forall loop_event evs →
  fold_left protocol_step evs (Some Open) = Some Open.
Proof.
  induction 1 as [|ev evs Hev _ IH]; simpl; [done|].
  by destruct ev.
Qed.

(** One per-site run, started with no session open, ends with no session
    open, unless the script run on the fresh browser raises: then the run
    raises and that session is left open. *)
Lemma protocol_crawl self W keyword pages s :
  protocol (st_trace s) = Some Closed →
  protocol (st_trace (BaseCrawler.crawl self W keyword pages s).2)
  = Some Closed
  ∨ (protocol (st_trace (BaseCrawler.crawl self W keyword pages s).2)
     = Some Open
     ∧ ∃ e, build_raises W = Some (ScriptRaises e)
            ∧ (BaseCrawler.crawl self W keyword pages s).1 = Exc e).
Proof.
  intros Hs. unfold protocol in *.
  destruct (build_raises W) as [[e|e]|] eqn:Hb.
  - left. by rewrite (crawl_no_driver self W keyword pages e s Hb).
  - right. rewrite (crawl_script_fails self W keyword pages e s Hb). simpl.
    rewrite fold_left_app, Hs. split; [done|]. by exists e.
  - left.
    destruct (crawl_releases_built_driver self W keyword pages s Hb)
      as (_ & _ & evs & Hevs & ->).
    rewrite fold_left_app, Hs. simpl.
    by rewrite fold_left_app, protocol_loop_events.
Qed.

Lemma protocol_crawl_loop cs W i keyword pages acc s :
  protocol (st_trace s) = Some Closed →
  protocol
    (st_trace (MultiSiteCrawler.crawl_loop cs W i keyword pages acc s).2)
  = Some Closed
  ∨ (protocol
       (st_trace (MultiSiteCrawler.crawl_loop cs W i keyword pages acc s).2)
     = Some Open
     ∧ ∃ j e, build_raises (W j) = Some (ScriptRaises e)
              ∧ (MultiSiteCrawler.crawl_loop cs W i keyword pages acc s).1
                = Exc e).
Proof.
  revert i acc s. induction cs as [|c cs IH]; intros i acc s Hs;
    cbn [MultiSiteCrawler.crawl_loop]; [by left|].
  unfold mbind, M_bind.
  destruct (protocol_crawl c (W i) keyword pages s Hs)
    as [Hclosed | (Hopen & e & Hb & He)];
    destruct (BaseCrawler.crawl c (W i) keyword pages s) as [[items|e'] s1];
    simpl in *.
  - by apply IH.
  - by left.
  - discriminate He.
  - right. split; [done|]. exists i, e. split; [done|]. simpl. done.
Qed.

(** X15: whatever the pages and the drivers do, the events of the crawl
    step keep to the browser protocol: sessions are started and quit one
    after the other, never two at a time, and every navigation, wait,
    extraction and pacing sleep happens inside a session.  When the step
    is left no session is open, with one exception: when the script that
    [build_driver] runs on a fresh browser raises, the step is left with
    that exception and with that one session still open. *)
Theorem X15_sessions_are_sequential :
  ∀ keyword pages_per_site sites W s,
    protocol (st_trace s) = Some Closed →
    protocol (st_trace (run_pipeline_crawl keyword pages_per_site sites W s).2)
    = Some Closed
    ∨ (protocol
         (st_trace (run_pipeline_crawl keyword pages_per_site sites W s).2)
       = Some Open
       ∧ ∃ j e, build_raises (W j) = Some (ScriptRaises e)
                ∧ (run_pipeline_crawl keyword pages_per_site sites W s).1
                  = Exc e).
Proof.
  intros keyword pages sites W s Hs.
  unfold run_pipeline_crawl, MultiSiteCrawler.crawl, lift, mbind, M_bind,
    mret, M_ret.
  destruct (MultiSiteCrawler.__init__ sites true 8) as [cs|e0]; [|by left].
  destruct (protocol_crawl_loop cs W 0 keyword pages [] s Hs)
    as [Hclosed | (Hopen & j & e & Hb & He)];
    destruct (MultiSiteCrawler.crawl_loop cs W 0 keyword pages [] s)
      as [[items|e'] s1]; simpl in *.
  - by left.
  - by left.
  - discriminate He.
  - right. split; [done|]. by exists j, e.
Qed.

(** Naver's second page is dead and Daum is fine: both sessions are
    closed when the step is left. *)
Lemma X15_witness :
  protocol
    (st_trace (run_pipeline_crawl (py "k") 2 (Some [py "naver"; py "daum"])
                 (λ i, match i with
                       | O => Samples.site_with_page_2 Samples.dead_page
                       | S _ => Samples.site_fine
                       end) initial_state).2)
  = Some Closed.
Proof.
  destruct (X15_sessions_are_sequential (py "k") 2
              (Some [py "naver"; py "daum"])
              (λ i, match i with
                    | O => Samples.site_with_page_2 Samples.dead_page
                    | S _ => Samples.site_fine
                    end) initial_state eq_refl) as [Hclosed | [Hopen _]].
  - exact Hclosed.
  - vm_compute in Hopen. discriminate Hopen.
Defined.

(** X19: once [build_driver] has returned, every way out of [crawl] —
    returning after all pages, returning after an abort, or an exception
    that is not an [Exception] passing through — goes through the
    [finally] block: the driver handle is [None] again, no session started
    by the run is live, and the run's events are the start, then loop
    events only, then the quit as the last event. *)
Theorem X19_built_driver_is_released_on_every_exit :
  ∀ (self : BaseCrawler.crawler) (W : site_world) (keyword : pystr)
    (pages : Z) (s : state),
    build_raises W = None →
    st_driver (BaseCrawler.crawl self W keyword pages s).2 = None
    ∧ st_live (BaseCrawler.crawl self W keyword pages s).2 = st_live s
    ∧ ∃ evs,
        Forall loop_event evs
        ∧ st_trace (BaseCrawler.crawl self W keyword pages s).2
          = st_trace s ++ [EvBuild (BaseCrawler.headless self)]
              ++ evs ++ [EvQuit].
Proof.
  intros self W keyword pages s Hb.
  by apply crawl_releases_built_driver.
Qed.

(** A run whose second page is interrupted from the keyboard: the
    interrupt escapes [crawl], and the driver has been quit all the
    same. *)
Lemma X19_witness :
  st_driver (BaseCrawler.crawl Samples.naver
               (Samples.site_with_page_2 Samples.interrupted_page)
               (py "k") 3 initial_state).2 = None
  ∧ st_live (BaseCrawler.crawl Samples.naver
               (Samples.site_with_page_2 Samples.interrupted_page)
               (py "k") 3 initial_state).2 = 0%nat.
Proof.
  destruct (X19_built_driver_is_released_on_every_exit Samples.naver
              (Samples.site_with_page_2 Samples.interrupted_page)
              (py "k") 3 initial_state eq_refl) as (Hdrv & Hlive & _).
  split; [exact Hdrv | exact Hlive].
Defined.

(** ** Navigation order *)

Lemma navigations_app (t1 t2 : list event) :
  navigations (t1 ++ t2) = navigations t1 ++ navigations t2.
Proof. apply omap_app. Qed.

(** An iteration navigates exactly once, to the page's URL, unless the
    URL cannot be built, and then it raises without any event. *)
Lemma page_body_navigations self W keyword page s :
  navigations (st_trace (BaseCrawler.page_body self W keyword page s).2)
  = navigations (st_trace s) ++ [url_of self keyword page]
  ∨ (navigations (st_trace (BaseCrawler.page_body self W keyword page s).2)
     = navigations (st_trace s)
     ∧ ∃ e, (BaseCrawler.page_body self W keyword page s).1 = Exc e).
Proof.
  unfold BaseCrawler.page_body, url_of, driver_get, wait_until,
    BaseCrawler.call_parse_page, sleep_uniform, results_extend, emit,
    try_except, raise, lift, mbind, M_bind, mret, M_ret.
  destruct (BaseCrawler.build_url _ _ _) as [u|e]; [left | right; eauto].
  destruct (get_raises _); simpl; [by rewrite navigations_app|].
  destruct (wait_raises _) as [e|]; simpl.
  - destruct (is_TimeoutException e); simpl;
      rewrite !navigations_app; simpl; by rewrite app_nil_r.
  - destruct (parse_raises _) as [e|]; simpl;
      [destruct (is_Exception e); simpl|];
      rewrite !navigations_app; simpl; by rewrite ?app_nil_r.
Qed.

Lemma for_each_navigations self W keyword ps s :
  ∃ m, (m ≤ length ps)%nat
       ∧ navigations
           (st_trace (for_each ps (BaseCrawler.page_body self W keyword) s).2)
         = navigations (st_trace s)
           ++ List.map (url_of self keyword) (take m ps).
Proof.
  revert s. induction ps as [|p ps IH]; intros s; simpl.
  - exists 0%nat. split; [done|]. by rewrite app_nil_r.
  - unfold mbind, M_bind.
    pose proof (page_body_navigations self W keyword p s) as Hp.
    destruct (BaseCrawler.page_body self W keyword p s) as [[[]|e] s1] eqn:Hbody;
      simpl in Hp.
    + destruct Hp as [Hp|[_ [e He]]]; [|done].
      destruct (IH s1) as (m & Hm & Hnav). exists (S m). split; [lia|].
      rewrite Hnav, Hp. simpl. by rewrite <- app_assoc.
    + destruct Hp as [Hp|[Hp _]]; simpl.
      * exists 1%nat. split; [lia|]. by rewrite Hp.
      * exists 0%nat. split; [lia|]. by rewrite Hp, app_nil_r.
Qed.

(** X16: in every environment, the pages a run navigates to are pages
    1, 2, ..., m, in this order and each exactly once, for some [m] not
    above [pages]: no page is fetched twice, none is skipped on the way,
    none beyond the requested number. *)
Theorem X16_pages_are_fetched_in_order_once :
  ∀ (self : BaseCrawler.crawler) (W : site_world) (keyword : pystr)
    (pages : Z) (s : state),
    ∃ m : nat,
      (Z.of_nat m ≤ Z.max 0 pages)
      ∧ navigations (st_trace (BaseCrawler.crawl self W keyword pages s).2)
        = navigations (st_trace s)
          ++ List.map (url_of self keyword)
               (List.map Z.of_nat (seq 1 m)).
Proof.
  intros self W keyword pages s.
  destruct (build_raises W) as [[e|e]|] eqn:Hb.
  - exists 0%nat. split; [lia|].
    rewrite (crawl_no_driver self W keyword pages e s Hb). simpl.
    by rewrite app_nil_r.
  - exists 0%nat. split; [lia|].
    rewrite (crawl_script_fails self W keyword pages e s Hb). simpl.
    rewrite navigations_app. simpl. by rewrite app_nil_r.
  - rewrite crawl_unfold by done.
    match goal with |- context [for_each ?ps ?b ?s0] =>
      destruct (for_each_navigations self W keyword ps s0)
        as (m & Hm & Hnav);
      destruct (for_each ps b s0) as [r s1] end.
    simpl in Hnav. rewrite navigations_app in Hnav. simpl in Hnav.
    rewrite app_nil_r in Hnav.
    exists m. split.
    { unfold range in Hm. rewrite length_map, length_seq in Hm. lia. }
    assert (Htake : take m (range 1 (pages + 1)) = List.map Z.of_nat (seq 1 m)).
    { unfold range in *. rewrite length_map, length_seq in Hm.
      rewrite <- fmap_take, take_seq.
      replace (m `min` Z.to_nat (pages + 1 - 1))%nat with m by lia.
      rewrite <- seq_shift, List.map_map. apply List.map_ext. intros i. lia. }
    rewrite <- Htake, <- Hnav.
    destruct r as [[]|e]; [|destruct (is_Exception e)]; simpl;
      rewrite navigations_app; simpl; by rewrite app_nil_r.
Qed.

(** ** Healthy sites *)

(** X17: when every session is healthy, the aggregated crawl returns the
    de-duplicated concatenation, in crawler order, of every page of every
    crawler, having run the crawlers one after the other. *)
Theorem X17_healthy_crawl_is_dedup_of_concatenation :
  ∀ (crawlers : list BaseCrawler.crawler) (W : nat → site_world)
    (keyword : pystr) (pages : Z) (s : state),
    (∀ j c, crawlers !! j = Some c → healthy c (W j) keyword pages) →
    ∃ s',
      MultiSiteCrawler.crawl crawlers W keyword pages s
      = (Ok (MultiSiteCrawler._deduplicate
               (healthy_items crawlers W 0 pages)), s')
      ∧ st_trace s' = st_trace s ++ healthy_events crawlers W 0 keyword pages
      ∧ st_live s' = st_live s.
Proof.
  intros crawlers W keyword pages s Hall.
  destruct (crawl_loop_healthy crawlers W 0 keyword pages [] s)
    as (s' & Hrun & Htrace & Hlive); [done|].
  exists s'. unfold MultiSiteCrawler.crawl, mbind, M_bind.
  by rewrite Hrun.
Qed.

(** Naver and Daum show the same card on every page: one record is left of
    the duplicates of each site. *)
Lemma X17_witness :
  ∃ s',
    MultiSiteCrawler.crawl [Samples.naver; Samples.daum]
      (λ _, Samples.site_fine) (py "k") 2 initial_state
    = (Ok (MultiSiteCrawler._deduplicate
             (healthy_items [Samples.naver; Samples.daum]
                (λ _, Samples.site_fine) 0 2)), s').
Proof.
  destruct (X17_healthy_crawl_is_dedup_of_concatenation
              [Samples.naver; Samples.daum] (λ _, Samples.site_fine)
              (py "k") 2 initial_state) as (s' & Hrun & _).
  - intros j c Hj.
    destruct j as [|[|j]]; [| |discriminate Hj]; injection Hj as <-;
      (split; [reflexivity|]; repeat constructor).
  - exists s'. exact Hrun.
Defined.

(** ** The time of a Naver card *)

Lemma first_time_text_Some spans t :
  NaverCrawler.first_time_text spans = Some t →
  (∃ span, span ∈ spans ∧ t = strip (text span))
  ∧ existsb (contains t) NaverCrawler.time_markers = true.
Proof.
  induction spans as [|span rest IH]; cbn [NaverCrawler.first_time_text];
    [done|].
  destruct (existsb (contains (strip (text span))) NaverCrawler.time_markers)
    eqn:Hmark.
  - intros [= <-]. split; [|done]. exists span. split; [by left | done].
  - intros [(sp & Hin & ->) Ht]%IH. split; [|done].
    exists sp. split; [by right | done].
Qed.

Lemma first_time_text_None spans :
  NaverCrawler.first_time_text spans = None →
  existsb (λ span, existsb (contains (strip (text span)))
                           NaverCrawler.time_markers) spans = false.
Proof.
  induction spans as [|span rest IH];
    cbn [NaverCrawler.first_time_text existsb]; [done|].
  destruct (existsb (contains (strip (text span))) NaverCrawler.time_markers);
    [done|]. apply IH.
Qed.

(** X18: the time of a Naver card is the stripped text of one of its
    [span.info] elements, or empty when it has none; and whenever one of
    those texts holds a time marker ("전", ".", "시간", "일"), so does the
    text chosen. *)
Theorem X18_extract_time_prefers_marked_spans :
  ∀ card : WebElement,
    match find_elements card "span.info" with
    | [] => NaverCrawler._extract_time card = []
    | span :: rest =>
        (∃ sp, sp ∈ span :: rest
               ∧ NaverCrawler._extract_time card = strip (text sp))
        ∧ existsb (contains (NaverCrawler._extract_time card))
                  NaverCrawler.time_markers
          = existsb (λ sp, existsb (contains (strip (text sp)))
                                   NaverCrawler.time_markers)
                    (span :: rest)
    end.
Proof.
  intros card. unfold NaverCrawler._extract_time.
  destruct (find_elements card "span.info") as [|span rest] eqn:Hspans;
    [done|].
  destruct (NaverCrawler.first_time_text (span :: rest)) as [t|] eqn:Hfirst.
  - apply first_time_text_Some in Hfirst as [(sp & Hin & ->) Hmark].
    split; [by exists sp|]. rewrite Hmark. symmetry.
    apply existsb_exists. exists sp. split; [by apply list_elem_of_In | done].
  - pose proof (first_time_text_None _ Hfirst) as Hnone.
    destruct (last (span :: rest)) as [sp|] eqn:Hlast.
    + apply last_Some_elem_of in Hlast. split; [by exists sp|].
      rewrite Hnone.
      destruct (existsb (contains (strip (text sp))) _) eqn:Hsp; [|done].
      rewrite <- Hnone. symmetry. apply existsb_exists.
      exists sp. split; [by apply list_elem_of_In | done].
    + by apply last_None in Hlast.
Qed.
